(** * Market-price survey of the apartment price predictor

    A shallow embedding of [5_Prototypowanie/wykład_streamlit/app.py]:
    the price text parser [parse_price], the page / listing loops and the
    per-locality aggregation of [scrape_market_prices], and the part of
    [main] that runs the survey and stores its result in the session.

    Python values are modelled as the program has them:
    - a [float] is an IEEE-754 binary64 number, [spec_float] with
      [prec = 53] and [emax = 1024], with correctly rounded operations;
    - an [int] is a [Z];
    - a scraped [str] is the list of its Unicode code points; program
      literals (locality names, URLs, messages) are [string]s holding
      their UTF-8 bytes;
    - a [dict] is an association list in insertion order;
    - the effects (HTTP requests, [time.sleep], progress callbacks) are
      collected in a trace, and an exception is a distinguished outcome. *)

From Stdlib Require Import ZArith NArith List String Ascii Bool Lia.
From Stdlib Require Import DecimalString DecimalZ.
From Stdlib Require Import Floats.SpecFloat.
Import ListNotations.

Local Open Scope Z_scope.

(* ================================================================== *)
(** ** Binary64 floating point *)

(** A Python [float]. *)
Definition float : Type := spec_float.

Module F64.

Definition prec : Z := 53.
Definition emax : Z := 1024.

(** [float(n)] for an integer [n], and the conversion of a decimal
    integer literal: the nearest binary64 number, ties to even;
    integers beyond the largest finite float give an infinity. *)
Definition of_Z (z : Z) : float := binary_normalize prec emax z 0 false.

Definition add : float -> float -> float := SFadd prec emax.
Definition div : float -> float -> float := SFdiv prec emax.

Definition leb : float -> float -> bool := SFleb.
Definition ltb : float -> float -> bool := SFltb.
Definition eqb : float -> float -> bool := SFeqb.

Definition zero : float := S754_zero false.
Definition one : float := Eval cbv in of_Z 1.

(** The literals [0.1] and [0.5]. *)
Definition lit_0_1 : float := S754_finite false 7205759403792794 (-56).
Definition lit_0_5 : float := S754_finite false 4503599627370496 (-53).

(** Truth value of a float in a condition: [x != 0.0]. *)
Definition truthy (x : float) : bool := negb (eqb x zero).

(** The sign bit is clear and the value is not a NaN. *)
Definition nonneg (x : float) : bool :=
  match x with
  | S754_zero s | S754_infinity s | S754_finite s _ _ => negb s
  | S754_nan => false
  end.

(** [eq_Z x z]: the float [x] is finite and its value is the integer [z]. *)
Definition eq_Z (x : float) (z : Z) : bool :=
  match x with
  | S754_zero _ => z =? 0
  | S754_finite s m e =>
      if 0 <=? e then cond_Zopp s (Zpos m) * 2 ^ e =? z
      else cond_Zopp s (Zpos m) =? z * 2 ^ (- e)
  | _ => false
  end.

(** The number of binary digits of a mantissa, and the exponent a
    number of a given magnitude is stored with. *)
Definition dg (m : Z) : Z := Zdigits2 m.
Definition fexp64 : Z -> Z := fexp prec emax.

(** A float at least one: the positive infinity, or positive and finite
    with a magnitude of at least one binary digit. *)
Definition big (x : float) : Prop :=
  x = S754_infinity false \/
  exists m e, x = S754_finite false m e /\ 1 <= dg (Zpos m) + e.

End F64.

(** A Python number as the survey stores it: the defaults are [int]s,
    a computed mean is a [float]. *)
Inductive pynum : Type :=
| PyInt (z : Z)
| PyFloat (x : float).

(* ================================================================== *)
(** ** Strings and dictionaries *)

(** A scraped text: the sequence of its code points. *)
Definition text : Type := list N.

(** [s.replace(c, '')] for a one-character [c]. *)
Definition str_remove (c : N) (s : text) : text :=
  filter (fun x => negb (N.eqb x c)) s.

(** [str(n)] for an integer. *)
Definition str_of_int (n : Z) : string := NilEmpty.string_of_int (Z.to_int n).

Definition dict (V : Type) : Type := list (string * V).

Fixpoint dict_get {V} (d : dict V) (k : string) : option V :=
  match d with
  | [] => None
  | (k', v) :: d' => if String.eqb k' k then Some v else dict_get d' k
  end.

(** [d[k] = v]: an existing key keeps its position, a new one goes last. *)
Fixpoint dict_set {V} (d : dict V) (k : string) (v : V) : dict V :=
  match d with
  | [] => [(k, v)]
  | (k', v') :: d' =>
      if String.eqb k' k then (k', v) :: d' else (k', v') :: dict_set d' k v
  end.

Definition keys {V} (d : dict V) : list string := map fst d.

(** [range(a, b)]. *)
Definition range (a b : Z) : list Z :=
  map (fun i => a + Z.of_nat i) (seq 0 (Z.to_nat (b - a))).

(* ================================================================== *)
(** ** Module constants (app.py, lines 11-33) *)

Definition LOCALITY_URL_MAP : dict string :=
  [ ("Łódź Bałuty", "lodz-baluty");
    ("Łódź Górna", "lodz-gorna");
    ("Łódź Śródmieście", "lodz-srodmiescie");
    ("Łódź Widzew", "lodz-widzew");
    ("Łódź Polesie", "lodz-polesie") ]%string.

Definition DEFAULT_MARKET_PRICES : dict Z :=
  [ ("Łódź Bałuty"%string, 380000);
    ("Łódź Górna"%string, 420000);
    ("Łódź Śródmieście"%string, 500000);
    ("Łódź Widzew"%string, 450000);
    ("Łódź Polesie"%string, 400000) ].

Definition BASE_URL : string := "https://adresowo.pl".

(* ================================================================== *)
(** ** Exceptions, the network and the trace of effects *)

(** Exceptions, by the two classes the handlers tell apart:
    [requests.RequestException] (timeouts, connection errors and the
    [HTTPError] of [raise_for_status]) and every other [Exception]. *)
Inductive exn : Type :=
| RequestException (what : string)
| OtherException (what : string).

Definition str_of_exn (e : exn) : string :=
  match e with RequestException w | OtherException w => w end.

(** One [section.search-results__item] node, by what
    [select_one('.result-info__price--total span')] and [get_text] do
    on it. *)
Inductive listing : Type :=
| NoPriceTag                      (* select_one returns None *)
| PriceTag (stripped : text)      (* get_text(strip=True) returns this *)
| ListingRaises (e : exn).        (* the lookup raises *)

(** What lines 67-71 produce for one URL: an exception raised by
    [session.get], [raise_for_status] or the HTML parser, or the list of
    listing nodes selected from the page. *)
Inductive response : Type :=
| Raises (e : exn)
| Listings (items : list listing).

(** Within one survey every URL is requested at most once, so the
    network is a function of the URL. *)
Definition network : Type := string -> response.

Inductive event : Type :=
| Get (url : string)                           (* session.get(url, timeout=10) *)
| Sleep (seconds : float)                      (* time.sleep *)
| Progress (fraction : float) (message : string). (* progress_callback(...) *)

Inductive outcome (A : Type) : Type :=
| Returned (a : A)
| Raised (e : exn).
Arguments Returned {A} a.
Arguments Raised {A} e.

(** A computation: the effects it performed, then how it ended. *)
Definition M (A : Type) : Type := (list event * outcome A)%type.

Definition ret {A} (a : A) : M A := ([], Returned a).
Definition raise {A} (e : exn) : M A := ([], Raised e).
Definition emit (ev : event) : M unit := ([ev], Returned tt).

Definition bind {A B} (m : M A) (k : A -> M B) : M B :=
  match m with
  | (tr, Returned a) => let '(tr', r) := k a in (tr ++ tr', r)
  | (tr, Raised e) => (tr, Raised e)
  end.

Notation "x <- m ;; k" := (bind m (fun x => k))
  (at level 61, m at next level, right associativity).
Notation "m ;;; k" := (bind m (fun _ => k))
  (at level 61, right associativity).

(** A progress observer: [None] when the call returns, [Some e] when it
    raises [e]. *)
Definition callback : Type := float -> string -> option exn.

(* ================================================================== *)
(** ** The scraper *)

Section Scraper.

(** The decimal-digit table of the Unicode database: [Some d] for a
    code point of category Nd with digit value [d]. Both the regular
    expression class [\d] and [float()] read it. *)
Variable unicode_decimal : N -> option N.

Definition is_digit (c : N) : bool :=
  match unicode_decimal c with Some _ => true | None => false end.

(** [re.sub(r'[^\d]', '', s)] *)
Definition re_sub_non_digits (s : text) : text := filter is_digit s.

(** The integer a string of decimal digits denotes. *)
Fixpoint int_of_digits (acc : Z) (s : text) : Z :=
  match s with
  | [] => acc
  | c :: s' =>
      match unicode_decimal c with
      | Some d => int_of_digits (10 * acc + Z.of_N d) s'
      | None => int_of_digits acc s'
      end
  end.

(** [float(s)] for a non-empty string of decimal digits, the only
    strings [parse_price] passes to it: the conversion is correctly
    rounded and raises no [ValueError]. *)
Definition float_of_digits (s : text) : float := F64.of_Z (int_of_digits 0 s).

(** app.py, lines 36-45. The argument is [None] or a string. What is
    left after the substitution holds decimal digits only, so the
    [except ValueError] branch is never taken. *)
Definition parse_price (price_text : option text) : option float :=
  match price_text with
  | None => None
  | Some [] => None
  | Some s =>
      let price_clean :=
        re_sub_non_digits (str_remove 32 (str_remove 160 s)) in
      match price_clean with
      | [] => None
      | _ => Some (float_of_digits price_clean)
      end
  end.

(** Lines 78-86: the body of the loop over the listings of a page.
    Whatever the lookup raises is swallowed by [except Exception]. *)
Definition scrape_listing (prices : list float) (item : listing) : list float :=
  match item with
  | ListingRaises _ => prices
  | NoPriceTag => prices
  | PriceTag stripped =>
      let price_text := str_remove 160 stripped in
      match parse_price (Some price_text) with
      | Some price => if F64.truthy price then prices ++ [price] else prices
      | None => prices
      end
  end.

(** Lines 77-86. *)
Definition scrape_listings (prices : list float) (listings : list listing)
  : list float :=
  fold_left scrape_listing listings prices.

(** The prices one page contributes. *)
Definition extract_prices (listings : list listing) : list float :=
  scrape_listings [] listings.

Definition page_url (url_suffix : string) (page_num : Z) : string :=
  (BASE_URL ++ "/mieszkania/" ++ url_suffix ++ "/_l" ++ str_of_int page_num)%string.

(** Lines 63-92: the loop over the page numbers still to visit. *)
Fixpoint scrape_pages (session : network) (url_suffix : string)
         (page_nums : list Z) (prices : list float) : M (list float) :=
  match page_nums with
  | [] => ret prices
  | page_num :: rest =>
      let url := page_url url_suffix page_num in
      emit (Get url) ;;;
      match session url with
      | Raises (RequestException _) =>          (* except: continue *)
          scrape_pages session url_suffix rest prices
      | Raises e => raise e
      | Listings [] => ret prices                (* break *)
      | Listings listings =>
          let prices := scrape_listings prices listings in
          emit (Sleep F64.lit_0_5) ;;;
          scrape_pages session url_suffix rest prices
      end
  end.

(** [sum(prices)]: the items are added from left to right, starting
    from [0]. *)
Definition py_sum (prices : list float) : float :=
  fold_left F64.add prices (F64.of_Z 0).

(** [sum(prices) / len(prices)]; the length of a list is far below the
    integers that [float] cannot hold. *)
Definition mean (prices : list float) : float :=
  F64.div (py_sum prices) (F64.of_Z (Z.of_nat (List.length prices))).

(** [DEFAULT_MARKET_PRICES.get(locality, 400000)] *)
Definition default_price (locality : string) : Z :=
  match dict_get DEFAULT_MARKET_PRICES locality with
  | Some v => v
  | None => 400000
  end.

(** Lines 95-99: the value stored for a locality. *)
Definition aggregate (locality : string) (prices : list float) : pynum :=
  match prices with
  | [] => PyInt (default_price locality)
  | _ => PyFloat (mean prices)
  end.

(** Lines 60-99: one locality, from the empty price list to its value. *)
Definition aggregate_locality (session : network) (pages : Z)
           (locality url_suffix : string) : M pynum :=
  prices <- scrape_pages session url_suffix (range 1 (pages + 1)) [] ;;
  ret (aggregate locality prices).

(** [if progress_callback: progress_callback(fraction, message)] *)
Definition call_progress (progress_callback : option callback)
           (fraction : float) (message : string) : M unit :=
  match progress_callback with
  | None => ret tt
  | Some f =>
      emit (Progress fraction message) ;;;
      match f fraction message with
      | None => ret tt
      | Some e => raise e
      end
  end.

(** [(idx + 0.1) / total_locations] *)
Definition fraction_started (idx total : Z) : float :=
  F64.div (F64.add (F64.of_Z idx) F64.lit_0_1) (F64.of_Z total).

(** [(idx + 1) / total_locations] *)
Definition fraction_finished (idx total : Z) : float :=
  F64.div (F64.of_Z (idx + 1)) (F64.of_Z total).

(** Lines 56-102: the loop over [enumerate(LOCALITY_URL_MAP.items())],
    from index [idx] on. *)
Fixpoint survey_loop (session : network) (pages : Z)
         (progress_callback : option callback) (total_locations : Z)
         (idx : Z) (items : list (string * string))
         (market_prices : dict pynum) : M (dict pynum) :=
  match items with
  | [] => ret market_prices
  | (locality, url_suffix) :: rest =>
      call_progress progress_callback
        (fraction_started idx total_locations)
        ("Scrapowanie " ++ locality ++ "...") ;;;
      v <- aggregate_locality session pages locality url_suffix ;;
      let market_prices := dict_set market_prices locality v in
      call_progress progress_callback
        (fraction_finished idx total_locations)
        ("Zakończono " ++ locality) ;;;
      survey_loop session pages progress_callback total_locations
        (idx + 1) rest market_prices
  end.

(** app.py, lines 48-104. *)
Definition scrape_market_prices (pages : Z)
           (progress_callback : option callback) (session : network)
  : M (dict pynum) :=
  survey_loop session pages progress_callback
    (Z.of_nat (List.length LOCALITY_URL_MAP)) 0 LOCALITY_URL_MAP [].

End Scraper.

(* ================================================================== *)
(** ** The survey button of [main] (app.py, lines 125-156) *)

(** [st.session_state]; a field is [None] while its key is absent. *)
Record session_state : Type := {
  market_prices : option (dict pynum);
  last_scraped : option Z;
  scraping_in_progress : option bool
}.

(** What the page shows in the sidebar. *)
Inductive ui_event : Type :=
| BarProgress (value : pynum)        (* progress_bar.progress(value) *)
| StatusText (message : string)      (* status_text.text(message) *)
| StatusSuccess (message : string)   (* status_text.success(message) *)
| StatusError (message : string)     (* status_text.error(message) *)
| SidebarSuccess (message : string)  (* st.sidebar.success(message) *)
| SidebarError (message : string).   (* st.sidebar.error(message) *)

Section App.

Variable unicode_decimal : N -> option N.

(** [DEFAULT_MARKET_PRICES.copy()] *)
Definition default_market_prices : dict pynum :=
  map (fun kv => (fst kv, PyInt (snd kv))) DEFAULT_MARKET_PRICES.

(** Lines 126-131. *)
Definition init_session (st : session_state) : session_state :=
  {| market_prices :=
       match market_prices st with
       | Some d => Some d
       | None => Some default_market_prices
       end;
     last_scraped := last_scraped st;
     scraping_in_progress :=
       match scraping_in_progress st with
       | Some b => Some b
       | None => Some false
       end |}.

(** Lines 141-143. The progress bar refuses a value outside [0, 1]. *)
Definition update_progress : callback :=
  fun progress _ =>
    if F64.leb F64.zero progress && F64.leb progress F64.one then None
    else Some (OtherException "StreamlitAPIException").

(** What [update_progress] draws for the callback calls of a trace. *)
Fixpoint drawn (tr : list event) : list ui_event :=
  match tr with
  | [] => []
  | Progress fraction message :: tr' =>
      BarProgress (PyFloat fraction) :: StatusText message :: drawn tr'
  | _ :: tr' => drawn tr'
  end.

(** Lines 126-156: the session is initialised and the button has been
    pressed at time [now]. The in-progress flag, set on line 137, is
    cleared again on both ways out. *)
Definition press_button (now : Z) (session : network) (st : session_state)
  : session_state * list ui_event :=
  let st := init_session st in
  match scrape_market_prices unicode_decimal 8 (Some update_progress) session with
  | (tr, Returned prices) =>
      ({| market_prices := Some prices;
          last_scraped := Some now;
          scraping_in_progress := Some false |},
       BarProgress (PyInt 0) :: drawn tr ++
       [ BarProgress (PyFloat F64.one);
         StatusSuccess "✅ Pobrano ceny rynkowe!";
         SidebarSuccess "Ceny rynkowe zostały zaktualizowane!" ])
  | (tr, Raised e) =>
      ({| market_prices := market_prices st;
          last_scraped := last_scraped st;
          scraping_in_progress := Some false |},
       BarProgress (PyInt 0) :: drawn tr ++
       [ SidebarError ("Błąd podczas scrapowania: " ++ str_of_exn e);
         StatusError "❌ Błąd podczas scrapowania" ])
  end.

End App.

(** The ASCII digits, the part of the decimal-digit table that every
    version of the Unicode database shares. *)
Definition ascii_decimal (c : N) : option N :=
  if (48 <=? c)%N && (c <=? 57)%N then Some (c - 48)%N else None.

(** The code points of an ASCII string. *)
Fixpoint text_of (s : string) : text :=
  match s with
  | EmptyString => []
  | String a s' => N_of_ascii a :: text_of s'
  end.

(* ================================================================== *)
(** ** Notions the properties are stated with *)

(** The digit values of the decimal digits of a text, in order. *)
Fixpoint digits_of (dec : N -> option N) (s : text) : list Z :=
  match s with
  | [] => []
  | c :: s' =>
      match dec c with
      | Some d => Z.of_N d :: digits_of dec s'
      | None => digits_of dec s'
      end
  end.

(** The integer a sequence of digit values denotes in base ten. *)
Definition number_of (ds : list Z) : Z :=
  fold_left (fun acc d => 10 * acc + d) ds 0.

(** The fractions of the progress events of a trace, in order. *)
Fixpoint fractions (tr : list event) : list float :=
  match tr with
  | [] => []
  | Progress fraction _ :: tr' => fraction :: fractions tr'
  | _ :: tr' => fractions tr'
  end.

Definition is_progress (ev : event) : bool :=
  match ev with Progress _ _ => true | _ => false end.

(** Consecutive floats are in [<=] order. *)
Fixpoint nondecreasing (xs : list float) : bool :=
  match xs with
  | x :: (y :: _) as xs' => F64.leb x y && nondecreasing xs'
  | _ => true
  end.

Definition in_unit_interval (x : float) : bool :=
  F64.leb F64.zero x && F64.leb x F64.one.

(** No request ends in an exception other than a [RequestException]. *)
Definition only_request_failures (session : network) : Prop :=
  forall url e, session url = Raises e -> exists what, e = RequestException what.

(** The observer, when there is one, returns from every call. *)
Definition returns_always (progress_callback : option callback) : Prop :=
  forall f, progress_callback = Some f -> forall fraction message, f fraction message = None.

(** The fractions a survey of [n] localities reports from index [idx] on. *)
Fixpoint reported_fractions (total idx : Z) (n : nat) : list float :=
  match n with
  | O => []
  | S n' =>
      fraction_started idx total :: fraction_finished idx total
        :: reported_fractions total (idx + 1) n'
  end.

(** The value stored for a locality: the default, or the mean of a
    non-empty list of prices. *)
Definition mean_or_default (locality : string) (v : pynum) : Prop :=
  v = PyInt (default_price locality) \/
  exists prices, prices <> [] /\ v = PyFloat (mean prices).

(** Every entry of a survey result is such a value. *)
Definition all_mean_or_default (d : dict pynum) : Prop :=
  forall locality, In locality (keys d) ->
    exists v, dict_get d locality = Some v /\ mean_or_default locality v.

(** Every request of a trace is followed by a sleep before the next
    request is issued; [pending] tells that a request is still waiting
    for its sleep. *)
Fixpoint throttled (pending : bool) (tr : list event) : bool :=
  match tr with
  | [] => true
  | Get _ :: tr' => negb pending && throttled true tr'
  | Sleep _ :: tr' => throttled false tr'
  | Progress _ _ :: tr' => throttled pending tr'
  end.

(** The largest length of a list, [sys.maxsize]. *)
Definition PY_SSIZE_T_MAX : Z := 2 ^ 63 - 1.

(* ================================================================== *)
(** ** Networks and observers the examples run on *)

(** The first page of [lodz-baluty] times out, every other page is empty. *)
Definition timeout_then_empty : network :=
  fun url =>
    if String.eqb url (page_url "lodz-baluty" 1)
    then Raises (RequestException "timeout")
    else Listings [].

(** The first page lists one flat without a price, the second one flat
    for 500 000, the others nothing. *)
Definition unpriced_then_priced : network :=
  fun url =>
    if String.eqb url (page_url "lodz-baluty" 1) then Listings [NoPriceTag]
    else if String.eqb url (page_url "lodz-baluty" 2)
         then Listings [PriceTag (text_of "500 000 z")]
         else Listings [].

(** Page 1 of [lodz-baluty] lists three flats, page 2 is empty, and
    every other request times out. *)
Definition three_prices_then_empty : network :=
  fun url =>
    if String.eqb url (page_url "lodz-baluty" 1)
    then Listings [PriceTag (text_of "100 000 z"); PriceTag (text_of "200 000 z");
                   PriceTag (text_of "300 000 z")]
    else if String.eqb url (page_url "lodz-baluty" 2) then Listings []
         else Raises (RequestException "timeout").

(** Every request times out. *)
Definition always_timeout : network := fun _ => Raises (RequestException "timeout").

(** The first page of [lodz-baluty] times out, the second lists one flat
    for 500 000, the others are empty. *)
Definition timeout_then_priced : network :=
  fun url =>
    if String.eqb url (page_url "lodz-baluty" 1)
    then Raises (RequestException "timeout")
    else if String.eqb url (page_url "lodz-baluty" 2)
         then Listings [PriceTag (text_of "500 000 z")]
         else Listings [].

(** Page 1 of [lodz-baluty] lists a flat for 0, a flat for 250 000 and a
    flat for 350 000; page 2 is empty. *)
Definition zero_and_two_prices : network :=
  fun url =>
    if String.eqb url (page_url "lodz-baluty" 1)
    then Listings [PriceTag (text_of "0 z"); PriceTag (text_of "250 000 z");
                   PriceTag (text_of "350 000 z")]
    else Listings [].

(** A parser failure on every page. *)
Definition always_crashes : network := fun _ => Raises (OtherException "parser error").

(** An observer that does nothing. *)
Definition silent_observer : callback := fun _ _ => None.

(* ================================================================== *)
(** ** What a trace holds, and the price lookup of [main] *)

(** The URLs requested in a trace, in order. *)
Fixpoint gets (tr : list event) : list string :=
  match tr with
  | [] => []
  | Get url :: tr' => url :: gets tr'
  | _ :: tr' => gets tr'
  end.

(** The sleeps of a trace, in order. *)
Fixpoint sleeps (tr : list event) : list float :=
  match tr with
  | [] => []
  | Sleep seconds :: tr' => seconds :: sleeps tr'
  | _ :: tr' => sleeps tr'
  end.

(** The messages of the progress events of a trace, in order. *)
Fixpoint messages (tr : list event) : list string :=
  match tr with
  | [] => []
  | Progress _ message :: tr' => message :: messages tr'
  | _ :: tr' => messages tr'
  end.

(** The prices a response contributes: those of its listings, nothing
    for a failed request. *)
Definition prices_of (dec : N -> option N) (r : response) : list float :=
  match r with
  | Listings listings => extract_prices dec listings
  | Raises _ => []
  end.

(** The response is a page with at least one listing. *)
Definition has_listings (r : response) : bool :=
  match r with
  | Listings (_ :: _) => true
  | _ => false
  end.

(** A listing with a price tag. *)
Definition has_price_tag (item : listing) : bool :=
  match item with PriceTag _ => true | _ => false end.

(** The string holds no ["/"]. *)
Fixpoint no_slash (s : string) : bool :=
  match s with
  | EmptyString => true
  | String a s' => negb (Ascii.eqb a "/") && no_slash s'
  end.

(** The options of the locality select box (app.py, lines 169-172). *)
Definition SELECTBOX_LOCALITIES : list string :=
  [ "Łódź Bałuty"; "Łódź Górna"; "Łódź Śródmieście";
    "Łódź Widzew"; "Łódź Polesie" ]%string.

(** Line 178:
    [st.session_state.market_prices.get(locality, DEFAULT_MARKET_PRICES[locality])].
    Both arguments are evaluated before the call: [None] stands for the
    [AttributeError] of a session without market prices and for the
    [KeyError] of a locality without a default. *)
Definition market_avg_price (st : session_state) (locality : string)
  : option pynum :=
  match market_prices st with
  | None => None
  | Some prices =>
      match dict_get DEFAULT_MARKET_PRICES locality with
      | None => None
      | Some d =>
          match dict_get prices locality with
          | Some v => Some v
          | None => Some (PyInt d)
          end
      end
  end.

(** A session before the first run of the script. *)
Definition fresh_session : session_state :=
  {| market_prices := None; last_scraped := None; scraping_in_progress := None |}.

(** The sessions a user can get to: by loading the page, which runs the
    initialisation, and by pressing the survey button. *)
Inductive reachable (dec : N -> option N) : session_state -> Prop :=
| reach_load : reachable dec (init_session fresh_session)
| reach_reload st : reachable dec st -> reachable dec (init_session st)
| reach_press now session st :
    reachable dec st -> reachable dec (fst (press_button dec now session st)).

(** The market prices of a session are those of a survey: one entry per
    known locality, each a default or a mean. *)
Definition surveyed (st : session_state) : Prop :=
  exists prices,
    market_prices st = Some prices /\
    keys prices = keys LOCALITY_URL_MAP /\
    all_mean_or_default prices.

(** The messages a survey over the given localities reports. *)
Definition reported_messages (items : list (string * string)) : list string :=
  flat_map (fun kv => [ "Scrapowanie " ++ fst kv ++ "..."; "Zakończono " ++ fst kv ])%string
    items.

(** The float is a number, not an infinity or a NaN. *)
Definition is_finite (x : float) : bool :=
  match x with
  | S754_zero _ | S754_finite _ _ _ => true
  | _ => false
  end.

(** The first page of [lodz-baluty] lists one flat for 500 000, every
    other page is empty: [timeout_then_empty] with an answer for the
    first page. *)
Definition priced_then_empty : network :=
  fun url =>
    if String.eqb url (page_url "lodz-baluty" 1)
    then Listings [PriceTag (text_of "500 000 z")]
    else Listings [].

(* ================================================================== *)
(** * Properties *)

(** ** Binary64 rounding *)

Module F64Facts.
Import F64.

Lemma fexp64_eq d : fexp64 d = Z.max (d - 53) (-1074).
Proof. reflexivity. Qed.

Lemma dg_log2 m : 0 < m -> dg m = Z.log2 m + 1.
Proof.
  destruct m as [|p|p]; try lia. intros _. unfold dg, Zdigits2.
  assert (H : forall q, digits2_pos q = Pos.size q) by (induction q; simpl; congruence).
  rewrite H. destruct p; simpl; lia.
Qed.

Lemma dg_pos m : 0 < m -> 0 < dg m.
Proof. intros H. rewrite dg_log2 by assumption. pose proof (Z.log2_nonneg m). lia. Qed.

Lemma dg_le_mono a b : 0 < a -> a <= b -> dg a <= dg b.
Proof.
  intros Ha Hab. rewrite !dg_log2 by lia.
  pose proof (Z.log2_le_mono a b Hab). lia.
Qed.

Lemma dg_succ a : 0 < a -> dg (a + 1) <= dg a + 1.
Proof.
  intros Ha. rewrite !dg_log2 by lia.
  pose proof (Z.log2_succ_le a). unfold Z.succ in *. lia.
Qed.

Lemma dg_shiftl a n : 0 < a -> 0 <= n -> dg (a * 2 ^ n) = dg a + n.
Proof.
  intros Ha Hn. assert (0 < 2 ^ n) by (apply Z.pow_pos_nonneg; lia).
  rewrite !dg_log2 by nia. rewrite Z.log2_mul_pow2 by lia. lia.
Qed.

Lemma dg_shiftr a n : 0 < a -> 0 <= n -> n < dg a ->
  0 < a / 2 ^ n /\ dg (a / 2 ^ n) = dg a - n.
Proof.
  intros Ha Hn Hlt. rewrite dg_log2 in Hlt by lia.
  assert (Hp : 0 < 2 ^ n) by (apply Z.pow_pos_nonneg; lia).
  assert (Hge : 2 ^ n <= a).
  { transitivity (2 ^ Z.log2 a).
    - apply Z.pow_le_mono_r; lia.
    - apply Z.log2_spec; lia. }
  assert (Hq : 0 < a / 2 ^ n) by (apply Z.div_str_pos; lia).
  split; [assumption|].
  rewrite !dg_log2 by lia.
  rewrite <- Z.shiftr_div_pow2 by lia.
  rewrite Z.log2_shiftr by lia. lia.
Qed.

Lemma iter_pos_nat {A} (f : A -> A) p x :
  iter_pos f p x = Nat.iter (Pos.to_nat p) f x.
Proof.
  revert x. induction p as [p IH|p IH|]; intros x; cbn [iter_pos].
  - rewrite !IH, Pos2Nat.inj_xI, Nat.iter_succ_r.
    replace (2 * Pos.to_nat p)%nat with (Pos.to_nat p + Pos.to_nat p)%nat by lia.
    now rewrite Nat.iter_add.
  - rewrite !IH, Pos2Nat.inj_xO.
    replace (2 * Pos.to_nat p)%nat with (Pos.to_nat p + Pos.to_nat p)%nat by lia.
    now rewrite Nat.iter_add.
  - reflexivity.
Qed.

Lemma shr_1_m r : 0 <= shr_m r -> shr_m (shr_1 r) = shr_m r / 2.
Proof.
  destruct r as [m b s]; simpl. intros H.
  destruct m as [|p|p]; try lia; [reflexivity|].
  destruct p; simpl shr_m.
  - rewrite Pos2Z.inj_xI. apply Z.div_unique with 1; lia.
  - rewrite Pos2Z.inj_xO. apply Z.div_unique with 0; lia.
  - reflexivity.
Qed.

Lemma shr_iter_m n r :
  0 <= shr_m r -> shr_m (Nat.iter n shr_1 r) = shr_m r / 2 ^ Z.of_nat n.
Proof.
  intros H. induction n as [|n IH].
  - simpl. now rewrite Z.div_1_r.
  - rewrite Nat2Z.inj_succ, Z.pow_succ_r by lia. simpl Nat.iter.
    rewrite shr_1_m.
    + rewrite IH, Z.div_div by lia. f_equal. lia.
    + rewrite IH. apply Z.div_pos; [lia | apply Z.pow_pos_nonneg; lia].
Qed.

Lemma shr_record_of_loc_m m l : shr_m (shr_record_of_loc m l) = m.
Proof. destruct l as [|[]]; reflexivity. Qed.

Lemma loc_of_shr_record_of_loc m l : loc_of_shr_record (shr_record_of_loc m l) = l.
Proof. destruct l as [|[]]; reflexivity. Qed.

(** Shifting a positive mantissa down to the exponent its magnitude asks
    for keeps it positive and keeps the magnitude. *)
Lemma shr_fexp_spec m e l :
  0 < m -> -1074 < dg m + e -> e <= fexp64 (dg m + e) ->
  exists r, shr_fexp prec emax m e l = (r, fexp64 (dg m + e)) /\
            0 < shr_m r /\ dg (shr_m r) + fexp64 (dg m + e) = dg m + e /\
            (fexp64 (dg m + e) = e -> r = shr_record_of_loc m l).
Proof.
  intros Hm Hmag Hcan. unfold shr_fexp, shr. fold (dg m). fold (fexp64 (dg m + e)).
  pose proof (dg_pos m Hm) as Hd.
  destruct (fexp64 (dg m + e) - e) as [|p|p] eqn:En; try lia.
  - exists (shr_record_of_loc m l). rewrite shr_record_of_loc_m.
    repeat split; try lia. f_equal. lia.
  - exists (iter_pos shr_1 p (shr_record_of_loc m l)).
    rewrite iter_pos_nat, shr_iter_m by (rewrite shr_record_of_loc_m; lia).
    rewrite shr_record_of_loc_m, positive_nat_Z.
    assert (Hlt : Z.pos p < dg m) by (rewrite fexp64_eq in En; lia).
    destruct (dg_shiftr m (Z.pos p) Hm ltac:(lia) Hlt) as [Hq Hdq].
    repeat split; try lia. f_equal. lia.
Qed.

Lemma round_nearest_even_cases m l :
  round_nearest_even m l = m \/ round_nearest_even m l = m + 1.
Proof. destruct l as [|[]]; simpl; auto. destruct (Z.even m); auto. Qed.

Lemma fexp64_mono a b : a <= b -> fexp64 a <= fexp64 b.
Proof. rewrite !fexp64_eq. lia. Qed.

(** Rounding a positive mantissa that carries at least the precision
    its magnitude [D] asks for: the result sits at magnitude [D] or
    [D + 1], with a positive mantissa, or is an infinity. *)
Lemma binary_round_aux_spec m e l :
  0 < m -> -1074 < dg m + e -> e <= fexp64 (dg m + e) ->
  exists D m',
    dg m + e <= D <= dg m + e + 1 /\
    dg (Zpos m') + fexp64 D = D /\
    binary_round_aux prec emax false m e l =
      if fexp64 D <=? emax - prec then S754_finite false m' (fexp64 D)
      else S754_infinity false.
Proof.
  intros Hm Hmag Hcan. unfold binary_round_aux.
  destruct (shr_fexp_spec m e l Hm Hmag Hcan) as (r1 & -> & Hr1 & Hd1 & _).
  set (e1 := fexp64 (dg m + e)) in *.
  set (m2 := round_nearest_even (shr_m r1) (loc_of_shr_record r1)).
  assert (Hm2 : 0 < m2 /\ dg (shr_m r1) <= dg m2 <= dg (shr_m r1) + 1).
  { subst m2. destruct (round_nearest_even_cases (shr_m r1) (loc_of_shr_record r1)) as [-> | ->].
    - lia.
    - pose proof (dg_succ (shr_m r1) Hr1).
      pose proof (dg_le_mono (shr_m r1) (shr_m r1 + 1) Hr1 ltac:(lia)). lia. }
  destruct Hm2 as [Hm2 Hd2].
  assert (Hcan2 : e1 <= fexp64 (dg m2 + e1)).
  { subst e1. apply fexp64_mono. lia. }
  destruct (shr_fexp_spec m2 e1 loc_Exact Hm2 ltac:(lia) Hcan2) as (r3 & -> & Hr3 & Hd3 & _).
  destruct (shr_m r3) as [|m3|m3] eqn:E3; try lia.
  exists (dg m2 + e1), m3. repeat split; try lia.
Qed.

Lemma shl_align_spec mx ex ex' :
  exists mz, shl_align mx ex ex' = (mz, Z.min ex ex') /\
             Zpos mz = Zpos mx * 2 ^ (ex - Z.min ex ex').
Proof.
  unfold shl_align. destruct (ex' - ex) as [|d|d] eqn:E.
  - exists mx. replace (Z.min ex ex') with ex by lia.
    rewrite Z.sub_diag. split; [reflexivity | simpl; lia].
  - exists mx. replace (Z.min ex ex') with ex by lia.
    rewrite Z.sub_diag. split; [reflexivity | simpl; lia].
  - exists (Pos.iter xO mx d). replace (Z.min ex ex') with ex' by lia.
    split; [reflexivity|].
    replace (ex - ex') with (Zpos d) by lia.
    change (Pos.iter xO mx d) with (Zpower.shift_pos d mx).
    rewrite Zpower.shift_pos_correct. change (Z.pow_pos 2 d) with (2 ^ Zpos d). lia.
Qed.

Lemma binary_round_spec p e :
  -1074 < dg (Zpos p) + e ->
  exists D m',
    dg (Zpos p) + e <= D <= dg (Zpos p) + e + 1 /\
    dg (Zpos m') + fexp64 D = D /\
    binary_round prec emax false p e =
      if fexp64 D <=? emax - prec then S754_finite false m' (fexp64 D)
      else S754_infinity false.
Proof.
  intros Hmag. unfold binary_round.
  change (Zpos (digits2_pos p)) with (dg (Zpos p)).
  fold (fexp64 (dg (Zpos p) + e)).
  destruct (shl_align_spec p e (fexp64 (dg (Zpos p) + e))) as (mz & -> & Hmz).
  set (ez := Z.min e (fexp64 (dg (Zpos p) + e))) in *.
  assert (Hd : dg (Zpos mz) + ez = dg (Zpos p) + e).
  { rewrite Hmz, dg_shiftl by lia. lia. }
  destruct (binary_round_aux_spec (Zpos mz) ez loc_Exact) as (D & m' & HD & Hm' & Hr).
  - lia.
  - lia.
  - rewrite Hd. subst ez. lia.
  - exists D, m'. rewrite Hd in HD. auto.
Qed.

Lemma big_pos x : big x -> ltb zero x = true.
Proof. intros [-> | (m & e & -> & _)]; reflexivity. Qed.

Lemma big_truthy x : big x -> truthy x = true.
Proof. intros [-> | (m & e & -> & _)]; reflexivity. Qed.

Lemma of_Z_big z : 0 < z -> big (of_Z z).
Proof.
  intros Hz. destruct z as [|p|p]; try lia.
  unfold of_Z, binary_normalize.
  pose proof (dg_pos (Zpos p) Hz) as Hd.
  destruct (binary_round_spec p 0 ltac:(lia)) as (D & m' & HD & Hm' & ->).
  destruct (fexp64 D <=? emax - prec).
  - right. exists m', (fexp64 D). split; [reflexivity | lia].
  - now left.
Qed.

Lemma of_Z_finite z : 0 < z < 2 ^ 63 ->
  exists m e, of_Z z = S754_finite false m e /\ 1 <= dg (Zpos m) + e <= 64.
Proof.
  intros Hz. destruct z as [|p|p]; try lia.
  unfold of_Z, binary_normalize.
  pose proof (dg_pos (Zpos p) ltac:(lia)) as Hd.
  assert (Hd63 : dg (Zpos p) <= 63).
  { rewrite dg_log2 by lia.
    assert (Z.log2 (Zpos p) < 63) by (apply Z.log2_lt_pow2; lia). lia. }
  destruct (binary_round_spec p 0 ltac:(lia)) as (D & m' & HD & Hm' & ->).
  assert (Hf : (fexp64 D <=? emax - prec) = true).
  { apply Z.leb_le. rewrite fexp64_eq. unfold emax, prec. lia. }
  rewrite Hf. exists m', (fexp64 D). split; [reflexivity | lia].
Qed.

Lemma add_big x y : big x -> big y -> big (add x y).
Proof.
  intros [-> | (mx & ex & -> & Hx)] [-> | (my & ey & -> & Hy)].
  - now left.
  - now left.
  - now left.
  - unfold add, SFadd. cbn [cond_Zopp].
    destruct (shl_align_spec mx ex (Z.min ex ey)) as (ax & -> & Hax).
    destruct (shl_align_spec my ey (Z.min ex ey)) as (ay & -> & Hay).
    cbn [fst]. change (Zpos ax + Zpos ay) with (Zpos (ax + ay)).
    unfold binary_normalize.
    set (ez := Z.min ex ey) in *.
    replace (Z.min ex ez) with ez in Hax by lia.
    replace (Z.min ey ez) with ez in Hay by lia.
    assert (Hd : dg (Zpos mx) + ex <= dg (Zpos (ax + ay)) + ez).
    { assert (dg (Zpos ax) = dg (Zpos mx) + (ex - ez)).
      { rewrite Hax. apply dg_shiftl; lia. }
      pose proof (dg_le_mono (Zpos ax) (Zpos (ax + ay)) ltac:(lia) ltac:(lia)). lia. }
    destruct (binary_round_spec (ax + ay) ez ltac:(lia)) as (D & m' & HD & Hm' & ->).
    destruct (fexp64 D <=? emax - prec).
    + right. exists m', (fexp64 D). split; [reflexivity | lia].
    + now left.
Qed.

Lemma dg_lower a k : 0 < a -> 0 <= k -> 2 ^ k <= a -> k + 1 <= dg a.
Proof.
  intros Ha Hk H. rewrite dg_log2 by lia.
  apply Z.log2_le_pow2 in H; lia.
Qed.

Lemma dg_upper a k : 0 < a -> a < 2 ^ k -> dg a <= k.
Proof.
  intros Ha H. rewrite dg_log2 by lia.
  assert (0 <= k). { destruct (Z_lt_le_dec k 0); [|lia]. rewrite Z.pow_neg_r in H; lia. }
  apply Z.log2_lt_pow2 in H; lia.
Qed.

Lemma dg_spec a : 0 < a -> 2 ^ (dg a - 1) <= a < 2 ^ dg a.
Proof.
  intros Ha. rewrite dg_log2 by lia.
  replace (Z.log2 a + 1 - 1) with (Z.log2 a) by lia.
  pose proof (Z.log2_spec a Ha). unfold Z.succ in *. lia.
Qed.


(** The quotient mantissa of a division whose result is far above the
    underflow threshold. *)
Lemma SFdiv_core_binary_spec mx ex my ey :
  -1021 <= dg (Zpos mx) + ex - (dg (Zpos my) + ey) ->
  exists q e' l,
    SFdiv_core_binary prec emax (Zpos mx) ex (Zpos my) ey = (q, e', l) /\
    0 < q /\
    dg (Zpos mx) + ex - (dg (Zpos my) + ey) <= dg q + e' /\
    e' <= fexp64 (dg q + e').
Proof.
  intros HM. unfold SFdiv_core_binary.
  change (Zdigits2 (Zpos mx)) with (dg (Zpos mx)).
  change (Zdigits2 (Zpos my)) with (dg (Zpos my)).
  set (d1 := dg (Zpos mx)) in *. set (d2 := dg (Zpos my)) in *.
  fold (fexp64 (d1 + ex - (d2 + ey))).
  set (M := d1 + ex - (d2 + ey)) in *.
  set (e' := Z.min (fexp64 M) (ex - ey)).
  set (s := ex - ey - e').
  assert (Hfe : fexp64 M = M - 53) by (rewrite fexp64_eq; lia).
  assert (Hs : 0 <= s /\ d2 - d1 + 53 <= s) by (subst s e'; lia).
  set (m' := match s with Z0 => Zpos mx | Zpos _ => Z.shiftl (Zpos mx) s | Zneg _ => 0 end).
  assert (Hm' : m' = Zpos mx * 2 ^ s).
  { subst m'. destruct s as [|p|p] eqn:Es; try lia.
    now rewrite Z.shiftl_mul_pow2 by lia. }
  destruct (Z.div_eucl m' (Zpos my)) as [q r] eqn:Eq.
  assert (Hq : q = m' / Zpos my) by (unfold Z.div; now rewrite Eq).
  exists q, e', (new_location (Zpos my) r).
  split; [reflexivity|].
  pose proof (dg_spec (Zpos mx) ltac:(lia)) as [Hlo1 _].
  pose proof (dg_spec (Zpos my) ltac:(lia)) as [_ Hhi2].
  fold d1 in Hlo1. fold d2 in Hhi2.
  pose proof (dg_pos (Zpos mx) ltac:(lia)) as Hd1. fold d1 in Hd1.
  pose proof (dg_pos (Zpos my) ltac:(lia)) as Hd2. fold d2 in Hd2.
  set (k := d1 + s - 1 - d2).
  assert (Hk : 0 <= k) by (subst k; lia).
  assert (Hge : 2 ^ k <= q).
  { rewrite Hq. apply Z.div_le_lower_bound; [lia|].
    rewrite Hm'.
    assert (E : 2 ^ (d1 - 1) * 2 ^ s = 2 ^ d2 * 2 ^ k).
    { rewrite <- !Z.pow_add_r by lia. f_equal. subst k. lia. }
    assert (0 < 2 ^ k) by (apply Z.pow_pos_nonneg; lia).
    assert (0 < 2 ^ s) by (apply Z.pow_pos_nonneg; lia).
    nia. }
  assert (Hqpos : 0 < q).
  { assert (0 < 2 ^ k) by (apply Z.pow_pos_nonneg; lia). lia. }
  pose proof (dg_lower q k Hqpos Hk Hge) as Hdq.
  assert (HMq : M <= dg q + e') by (subst k s; lia).
  repeat split; try assumption.
  transitivity (fexp64 M); [subst e'; lia | now apply fexp64_mono].
Qed.

Lemma div_big_pos x z :
  big x -> 0 < z < 2 ^ 63 -> ltb zero (div x (of_Z z)) = true.
Proof.
  intros Hx Hz.
  destruct (of_Z_finite z Hz) as (my & ey & -> & Hy).
  destruct Hx as [-> | (mx & ex & -> & Hx)]; [reflexivity|].
  unfold div, SFdiv.
  destruct (SFdiv_core_binary_spec mx ex my ey ltac:(lia))
    as (q & e' & l & -> & Hq & HM & Hcan).
  cbn [xorb].
  destruct (binary_round_aux_spec q e' l Hq ltac:(lia) Hcan) as (D & m' & _ & _ & ->).
  now destruct (fexp64 D <=? emax - prec).
Qed.

(** An integer below [2^53] is converted exactly. *)
Lemma of_Z_exact z : 0 < z < 2 ^ 53 ->
  exists m e, of_Z z = S754_finite false m e /\ e <= 0 /\ Zpos m = z * 2 ^ (- e).
Proof.
  intros Hz. destruct z as [|p|p]; try lia.
  unfold of_Z, binary_normalize, binary_round.
  change (Zpos (digits2_pos p)) with (dg (Zpos p)).
  pose proof (dg_pos (Zpos p) ltac:(lia)) as Hd.
  assert (Hd53 : dg (Zpos p) <= 53) by (apply dg_upper; lia).
  fold (fexp64 (dg (Zpos p) + 0)).
  destruct (shl_align_spec p 0 (fexp64 (dg (Zpos p) + 0))) as (mz & -> & Hmz).
  assert (Hfe : fexp64 (dg (Zpos p) + 0) = dg (Zpos p) - 53) by (rewrite fexp64_eq; lia).
  rewrite Hfe in *.
  replace (Z.min 0 (dg (Zpos p) - 53)) with (dg (Zpos p) - 53) in * by lia.
  set (ez := dg (Zpos p) - 53) in *.
  assert (Hdz : dg (Zpos mz) + ez = dg (Zpos p)).
  { rewrite Hmz, dg_shiftl by lia. lia. }
  assert (Hcan : fexp64 (dg (Zpos mz) + ez) = ez) by (rewrite fexp64_eq; lia).
  unfold binary_round_aux.
  destruct (shr_fexp_spec (Zpos mz) ez loc_Exact ltac:(lia) ltac:(lia) ltac:(lia))
    as (r & Hr & _ & _ & Hid).
  specialize (Hid Hcan). subst r. rewrite Hr, Hcan. cbn [shr_record_of_loc shr_m loc_of_shr_record round_nearest_even].
  rewrite Hr, Hcan. cbn [shr_record_of_loc shr_m].
  assert (Hle : (ez <=? emax - prec) = true) by (apply Z.leb_le; unfold emax, prec; lia).
  rewrite Hle. exists mz, ez. repeat split; try lia.
  rewrite Hmz. now rewrite Z.sub_0_l.
Qed.

Lemma of_Z_eq_Z z : 0 <= z < 2 ^ 53 -> eq_Z (of_Z z) z = true.
Proof.
  intros Hz. destruct (Z.eq_dec z 0) as [-> | Hnz]; [reflexivity|].
  destruct (of_Z_exact z ltac:(lia)) as (m & e & -> & He & Hm).
  unfold eq_Z. cbn [cond_Zopp].
  destruct (Z.leb_spec 0 e).
  - assert (e = 0) by lia. subst e. apply Z.eqb_eq. simpl in Hm. lia.
  - now apply Z.eqb_eq.
Qed.

Lemma of_Z_nonneg z : 0 <= z -> nonneg (of_Z z) = true.
Proof.
  intros Hz. destruct (Z.eq_dec z 0) as [-> | Hnz]; [reflexivity|].
  destruct (of_Z_big z ltac:(lia)) as [-> | (m & e & -> & _)]; reflexivity.
Qed.

End F64Facts.

(** ** The price text parser *)

Section ParsePrice.

Variable dec : N -> option N.

Lemma int_of_digits_fold (s : text) acc :
  int_of_digits dec acc s =
  fold_left (fun acc d => 10 * acc + d) (digits_of dec s) acc.
Proof.
  revert acc. induction s as [|c s IH]; intros acc; simpl; [reflexivity|].
  destruct (dec c); simpl; apply IH.
Qed.

Lemma digits_of_filter (f : N -> bool) (s : text) :
  (forall c, f c = false -> dec c = None) ->
  digits_of dec (filter f s) = digits_of dec s.
Proof.
  intros Hf. induction s as [|c s IH]; simpl; [reflexivity|].
  destruct (f c) eqn:E; simpl.
  - now rewrite IH.
  - now rewrite (Hf c E).
Qed.

Lemma digits_of_clean (s : text) :
  digits_of dec (re_sub_non_digits dec s) = digits_of dec s.
Proof.
  apply digits_of_filter. intros c. unfold is_digit. now destruct (dec c).
Qed.

Lemma filter_nil_digits (s : text) :
  filter (is_digit dec) s = [] <-> digits_of dec s = [].
Proof.
  induction s as [|c s IH]; simpl; [tauto|].
  unfold is_digit at 1. destruct (dec c); [split; discriminate | exact IH].
Qed.

Lemma number_of_nonneg (s : text) acc :
  0 <= acc -> 0 <= fold_left (fun acc d => 10 * acc + d) (digits_of dec s) acc.
Proof.
  revert acc. induction s as [|c s IH]; intros acc Hacc; cbn [digits_of fold_left];
    [assumption|].
  destruct (dec c) as [d|]; cbn [fold_left]; apply IH;
    [pose proof (N2Z.is_nonneg d) |]; lia.
Qed.

Lemma has_digit_digits_of (s : text) :
  (exists c, In c s /\ is_digit dec c = true) <-> digits_of dec s <> [].
Proof.
  induction s as [|c s IH]; simpl.
  - split; [intros (c & [] & _) | congruence].
  - split.
    + intros (c' & [<- | Hin] & Hd).
      * unfold is_digit in Hd. destruct (dec c); [discriminate | discriminate].
      * destruct (dec c); [discriminate | apply IH; eauto].
    + destruct (dec c) eqn:E.
      * intros _. exists c. split; [now left | unfold is_digit; now rewrite E].
      * intros H. apply IH in H. destruct H as (c' & Hin & Hd). eauto.
Qed.

(** What the two [replace] calls remove is no digit, unless the table
    says otherwise; either way the digits that survive the regular
    expression are those of the text without spaces. *)
Lemma parse_price_eq (s : text) :
  parse_price dec (Some s) =
  match digits_of dec (str_remove 32 (str_remove 160 s)) with
  | [] => None
  | ds => Some (F64.of_Z (number_of ds))
  end.
Proof.
  unfold parse_price. destruct s as [|c s]; [reflexivity|].
  set (t := str_remove 32 (str_remove 160 (c :: s))).
  destruct (re_sub_non_digits dec t) as [|c' s'] eqn:E.
  - apply filter_nil_digits in E. now rewrite E.
  - unfold float_of_digits. rewrite <- E, int_of_digits_fold, digits_of_clean.
    assert (H : digits_of dec t <> []).
    { intros H. apply filter_nil_digits in H.
      unfold re_sub_non_digits in E. congruence. }
    destruct (digits_of dec t); [congruence | reflexivity].
Qed.
End ParsePrice.

Lemma digits_of_str_remove dec c (s : text) :
  dec c = None -> digits_of dec (str_remove c s) = digits_of dec s.
Proof.
  intros Hc. apply digits_of_filter. intros x Hx.
  apply negb_false_iff, N.eqb_eq in Hx. now subst x.
Qed.

(** C5 (amended): if neither the space nor the no-break space is a
    decimal digit, then for a text with at least one decimal digit
    [parse_price] returns the binary64 number nearest to the integer its
    digit characters form in order; that number is non-negative, and it
    equals the integer whenever the integer is below [2^53]. For a text
    without digits, for the empty text and for [None] it returns [None]. *)
Theorem parse_price_spec (dec : N -> option N) (s : text) :
  dec 32%N = None -> dec 160%N = None ->
  ((exists c, In c s /\ is_digit dec c = true) ->
   parse_price dec (Some s) = Some (F64.of_Z (number_of (digits_of dec s))) /\
   F64.nonneg (F64.of_Z (number_of (digits_of dec s))) = true /\
   (number_of (digits_of dec s) < 2 ^ 53 ->
    F64.eq_Z (F64.of_Z (number_of (digits_of dec s))) (number_of (digits_of dec s)) = true)) /\
  ((forall c, In c s -> is_digit dec c = false) -> parse_price dec (Some s) = None) /\
  parse_price dec None = None.
Proof.
  intros H32 H160.
  assert (E : parse_price dec (Some s) =
              match digits_of dec s with
              | [] => None
              | ds => Some (F64.of_Z (number_of ds))
              end).
  { rewrite parse_price_eq. now rewrite !digits_of_str_remove. }
  assert (Hn : 0 <= number_of (digits_of dec s)).
  { apply number_of_nonneg. lia. }
  split; [|split].
  - intros Hd. apply has_digit_digits_of in Hd.
    split; [|split].
    + rewrite E. destruct (digits_of dec s); [congruence | reflexivity].
    + now apply F64Facts.of_Z_nonneg.
    + intros Hlt. apply F64Facts.of_Z_eq_Z. lia.
  - intros Hnone. rewrite E.
    destruct (digits_of dec s) eqn:Ed; [reflexivity|].
    assert (Hd : digits_of dec s <> []) by congruence.
    apply has_digit_digits_of in Hd. destruct Hd as (c & Hin & Hc).
    rewrite (Hnone c Hin) in Hc. discriminate.
  - reflexivity.
Qed.

Lemma parse_price_spec_witness :
  parse_price ascii_decimal (Some (text_of "380 000 z" ++ [322%N]))
  = Some (F64.of_Z 380000).
Proof.
  destruct (parse_price_spec ascii_decimal (text_of "380 000 z" ++ [322%N])
              eq_refl eq_refl) as [H _].
  apply H. exists 51%N. split; [simpl; tauto | reflexivity].
Defined.

(** The digits of 2^53 + 1 are read as 2^53: the float returned is not
    the integer the digits form. *)
Lemma parse_price_rounds_large :
  number_of (digits_of ascii_decimal (text_of "9007199254740993")) = 9007199254740993 /\
  exists x,
    parse_price ascii_decimal (Some (text_of "9007199254740993")) = Some x /\
    F64.eq_Z x 9007199254740993 = false /\
    F64.eq_Z x 9007199254740992 = true.
Proof.
  split; [reflexivity|].
  eexists. split; [vm_compute; reflexivity|]. split; reflexivity.
Qed.

(** ** The listing and page loops *)

Section Loops.
Variable dec : N -> option N.

Lemma parse_price_big (s : text) x :
  parse_price dec (Some s) = Some x -> F64.truthy x = true -> F64.big x.
Proof.
  rewrite parse_price_eq.
  destruct (digits_of dec (str_remove 32 (str_remove 160 s))) as [|d ds] eqn:E;
    [discriminate|].
  rewrite <- E. intros [= <-] Ht.
  pose proof (number_of_nonneg dec (str_remove 32 (str_remove 160 s)) 0 ltac:(lia)) as Hn.
  fold (number_of (digits_of dec (str_remove 32 (str_remove 160 s)))) in Hn.
  destruct (Z.eq_dec (number_of (digits_of dec (str_remove 32 (str_remove 160 s)))) 0)
    as [E0 | Hnz].
  - rewrite E0 in Ht. discriminate.
  - apply F64Facts.of_Z_big. lia.
Qed.

Lemma scrape_listing_big prices item :
  Forall F64.big prices -> Forall F64.big (scrape_listing dec prices item).
Proof.
  intros H. destruct item as [|t|e]; cbn [scrape_listing]; try assumption.
  destruct (parse_price dec (Some (str_remove 160 t))) as [x|] eqn:E; [|assumption].
  destruct (F64.truthy x) eqn:Ht; [|assumption].
  apply Forall_app. split; [assumption|].
  constructor; [|constructor]. eapply parse_price_big; eassumption.
Qed.

Lemma scrape_listings_big listings prices :
  Forall F64.big prices -> Forall F64.big (scrape_listings dec prices listings).
Proof.
  revert prices. unfold scrape_listings.
  induction listings as [|item listings IH]; intros prices H; simpl; [assumption|].
  apply IH. now apply scrape_listing_big.
Qed.

Lemma bind_emit {A} ev (m : M A) : (emit ev ;;; m) = (ev :: fst m, snd m).
Proof. unfold bind, emit. now destruct m. Qed.

Lemma scrape_pages_step session url_suffix page_num rest prices :
  scrape_pages dec session url_suffix (page_num :: rest) prices =
  match session (page_url url_suffix page_num) with
  | Raises (RequestException _) =>
      (Get (page_url url_suffix page_num)
         :: fst (scrape_pages dec session url_suffix rest prices),
       snd (scrape_pages dec session url_suffix rest prices))
  | Raises e => ([Get (page_url url_suffix page_num)], Raised e)
  | Listings [] => ([Get (page_url url_suffix page_num)], Returned prices)
  | Listings listings =>
      (Get (page_url url_suffix page_num) :: Sleep F64.lit_0_5
         :: fst (scrape_pages dec session url_suffix rest
                   (scrape_listings dec prices listings)),
       snd (scrape_pages dec session url_suffix rest
              (scrape_listings dec prices listings)))
  end.
Proof.
  cbn [scrape_pages]. rewrite bind_emit.
  destruct (session (page_url url_suffix page_num)) as [[w|w]|[|item items]];
    try reflexivity.
  rewrite bind_emit. reflexivity.
Qed.

Lemma scrape_pages_big session url_suffix page_nums prices :
  Forall F64.big prices ->
  forall ps, snd (scrape_pages dec session url_suffix page_nums prices) = Returned ps ->
  Forall F64.big ps.
Proof.
  revert prices. induction page_nums as [|p rest IH]; intros prices H ps.
  - simpl. now intros [= <-].
  - rewrite scrape_pages_step.
    destruct (session (page_url url_suffix p)) as [[w|w]|[|item items]]; cbn [snd].
    + now apply IH.
    + discriminate.
    + now intros [= <-].
    + apply IH. now apply scrape_listings_big.
Qed.

Lemma py_sum_big prices :
  prices <> [] -> Forall F64.big prices -> F64.big (py_sum prices).
Proof.
  unfold py_sum. destruct prices as [|x prices]; [congruence|]. intros _ H.
  inversion H as [|? ? Hx Hps]; subst. cbn [fold_left].
  assert (Hx0 : F64.add (F64.of_Z 0) x = x).
  { destruct Hx as [-> | (m & e & -> & _)]; reflexivity. }
  rewrite Hx0. clear Hx0 H.
  revert x Hx. induction prices as [|y prices IH]; intros x Hx; cbn [fold_left];
    [assumption|].
  inversion Hps; subst. apply IH; [assumption|]. now apply F64Facts.add_big.
Qed.

Lemma mean_pos prices :
  prices <> [] -> Forall F64.big prices ->
  Z.of_nat (List.length prices) < 2 ^ 63 ->
  F64.ltb F64.zero (mean prices) = true.
Proof.
  intros Hne H Hlen. unfold mean. apply F64Facts.div_big_pos.
  - now apply py_sum_big.
  - destruct prices; [congruence|]. cbn [List.length] in *. lia.
Qed.
End Loops.

(** ** The page loop *)

Lemma range_cons a b : a < b -> range a b = a :: range (a + 1) b.
Proof.
  intros H. unfold range.
  replace (Z.to_nat (b - a)) with (S (Z.to_nat (b - (a + 1)))) by lia.
  cbn [seq map]. f_equal; [lia|].
  rewrite <- seq_shift, map_map. apply map_ext. intros i. lia.
Qed.

Lemma range_nil a b : b <= a -> range a b = [].
Proof. intros H. unfold range. now replace (Z.to_nat (b - a)) with 0%nat by lia. Qed.

Lemma in_range a b i : In i (range a b) <-> a <= i < b.
Proof.
  unfold range. rewrite in_map_iff. split.
  - intros (n & <- & Hn). apply in_seq in Hn. lia.
  - intros H. exists (Z.to_nat (i - a)). split; [lia|]. apply in_seq. lia.
Qed.

Lemma range_split a k b : a <= k <= b -> range a b = range a k ++ range k b.
Proof.
  remember (Z.to_nat (k - a)) as n eqn:En. revert a En.
  induction n as [|n IH]; intros a En H.
  - assert (k = a) by lia. subst k. now rewrite (range_nil a a) by lia.
  - rewrite (range_cons a b), (range_cons a k) by lia.
    cbn [app]. f_equal. apply IH; lia.
Qed.

Lemma append_inj_l (a b c : string) : (a ++ b = a ++ c)%string -> b = c.
Proof. induction a as [|x a IH]; simpl; [auto | intros [= H]; auto]. Qed.

Lemma str_of_int_inj a b : str_of_int a = str_of_int b -> a = b.
Proof.
  unfold str_of_int. intros H.
  apply (f_equal NilEmpty.int_of_string) in H.
  rewrite !NilEmpty.isi in H. injection H as H.
  now apply DecimalZ.to_int_inj.
Qed.

Lemma page_url_inj url_suffix a b :
  page_url url_suffix a = page_url url_suffix b -> a = b.
Proof.
  unfold page_url. intros H.
  do 4 apply append_inj_l in H. now apply str_of_int_inj.
Qed.

Section Pages.
Variable dec : N -> option N.
Variable session : network.
Variable url_suffix : string.

Lemma scrape_pages_gets page_nums prices url :
  In (Get url) (fst (scrape_pages dec session url_suffix page_nums prices)) ->
  exists p, In p page_nums /\ url = page_url url_suffix p.
Proof.
  revert prices. induction page_nums as [|h rest IH]; intros prices.
  - simpl. tauto.
  - rewrite scrape_pages_step.
    destruct (session (page_url url_suffix h)) as [[w|w]|[|item items]]; cbn [fst];
      intros Hin.
    + destruct Hin as [[= <-] | Hin]; [exists h; split; [now left | reflexivity]|].
      destruct (IH _ Hin) as (p & Hp & ->). exists p. split; [now right | reflexivity].
    + destruct Hin as [[= <-] | []]. exists h; split; [now left | reflexivity].
    + destruct Hin as [[= <-] | []]. exists h; split; [now left | reflexivity].
    + destruct Hin as [[= <-] | [Hin | Hin]];
        [exists h; split; [now left | reflexivity] | discriminate |].
      destruct (IH _ Hin) as (p & Hp & ->). exists p. split; [now right | reflexivity].
Qed.

Lemma scrape_pages_no_request_exception page_nums prices what :
  snd (scrape_pages dec session url_suffix page_nums prices)
  <> Raised (RequestException what).
Proof.
  revert prices. induction page_nums as [|h rest IH]; intros prices.
  - simpl. discriminate.
  - rewrite scrape_pages_step.
    destruct (session (page_url url_suffix h)) as [[w|w]|[|item items]]; cbn [snd];
      try discriminate; apply IH.
Qed.

(** Every page fails with a [RequestException]: all of them are
    requested and the price list is left as it was. *)
Lemma scrape_pages_all_fail page_nums prices :
  (forall p, In p page_nums ->
             exists what, session (page_url url_suffix p) = Raises (RequestException what)) ->
  scrape_pages dec session url_suffix page_nums prices =
  (map (fun p => Get (page_url url_suffix p)) page_nums, Returned prices).
Proof.
  induction page_nums as [|h rest IH]; intros Hall; [reflexivity|].
  rewrite scrape_pages_step.
  destruct (Hall h (or_introl eq_refl)) as (w & ->).
  rewrite IH by (intros p Hp; apply Hall; now right). reflexivity.
Qed.

Section EmptyPage.
Variable k : Z.
Hypothesis Hempty : session (page_url url_suffix k) = Listings [].

Lemma scrape_pages_break before after prices :
  scrape_pages dec session url_suffix (before ++ k :: after) prices =
  scrape_pages dec session url_suffix (before ++ [k]) prices.
Proof.
  revert prices. induction before as [|h before IH]; intros prices; cbn [app].
  - rewrite !scrape_pages_step, Hempty. reflexivity.
  - rewrite !scrape_pages_step.
    destruct (session (page_url url_suffix h)) as [[w|w]|[|item items]];
      try reflexivity; now rewrite IH.
Qed.

Lemma scrape_pages_break_result before prices :
  snd (scrape_pages dec session url_suffix (before ++ [k]) prices) =
  snd (scrape_pages dec session url_suffix before prices).
Proof.
  revert prices. induction before as [|h before IH]; intros prices; cbn [app].
  - rewrite scrape_pages_step, Hempty. reflexivity.
  - rewrite !scrape_pages_step.
    destruct (session (page_url url_suffix h)) as [[w|w]|[|item items]];
      try reflexivity; cbn [snd]; apply IH.
Qed.
End EmptyPage.

Section FailedPage.
Variable k : Z.
Variable what : string.
Hypothesis Hfail : session (page_url url_suffix k) = Raises (RequestException what).

Lemma scrape_pages_skip before after prices :
  snd (scrape_pages dec session url_suffix (before ++ k :: after) prices) =
  snd (scrape_pages dec session url_suffix (before ++ after) prices).
Proof.
  revert prices. induction before as [|h before IH]; intros prices; cbn [app].
  - rewrite scrape_pages_step, Hfail. reflexivity.
  - rewrite !scrape_pages_step.
    destruct (session (page_url url_suffix h)) as [[w|w]|[|item items]];
      try reflexivity; cbn [snd]; apply IH.
Qed.

Lemma scrape_pages_next before next after prices :
  ~ In k before ->
  In (Get (page_url url_suffix k))
     (fst (scrape_pages dec session url_suffix (before ++ k :: next :: after) prices)) ->
  In (Get (page_url url_suffix next))
     (fst (scrape_pages dec session url_suffix (before ++ k :: next :: after) prices)).
Proof.
  revert prices. induction before as [|h before IH]; intros prices Hnin; cbn [app].
  - intros _. rewrite scrape_pages_step, Hfail. cbn [fst]. right.
    rewrite scrape_pages_step.
    destruct (session (page_url url_suffix next)) as [[w|w]|[|item items]];
      now left.
  - assert (Hne : Get (page_url url_suffix h) <> Get (page_url url_suffix k)).
    { intros E.
      apply (f_equal (fun ev => match ev with Get u => u | _ => EmptyString end)) in E.
      cbv beta iota in E. apply page_url_inj in E. apply Hnin. now left. }
    assert (Hnin' : ~ In k before) by (intros H; apply Hnin; now right).
    rewrite scrape_pages_step.
    destruct (session (page_url url_suffix h)) as [[w|w]|[|item items]]; cbn [fst];
      intros Hin.
    + destruct Hin as [E | Hin]; [contradiction|]. right. now apply IH.
    + destruct Hin as [E | []]. contradiction.
    + destruct Hin as [E | []]. contradiction.
    + destruct Hin as [E | [E | Hin]]; [contradiction | discriminate |].
      right; right. now apply IH.
Qed.
End FailedPage.
End Pages.

Section Growth.
Variable dec : N -> option N.

Lemma scrape_listing_app prices more item :
  scrape_listing dec (prices ++ more) item = prices ++ scrape_listing dec more item.
Proof.
  destruct item as [|t|e]; cbn [scrape_listing]; try reflexivity.
  destruct (parse_price dec (Some (str_remove 160 t))) as [x|]; [|reflexivity].
  destruct (F64.truthy x); [now rewrite app_assoc | reflexivity].
Qed.

Lemma scrape_listings_app listings prices :
  scrape_listings dec prices listings = prices ++ extract_prices dec listings.
Proof.
  unfold extract_prices, scrape_listings.
  rewrite <- (app_nil_r prices) at 1. generalize (@nil float) as more.
  induction listings as [|item listings IH]; intros more; cbn [fold_left];
    [reflexivity|].
  now rewrite scrape_listing_app, IH.
Qed.

Lemma scrape_pages_grows session url_suffix page_nums prices ps :
  snd (scrape_pages dec session url_suffix page_nums prices) = Returned ps ->
  exists more, ps = prices ++ more.
Proof.
  revert prices. induction page_nums as [|h rest IH]; intros prices.
  - simpl. intros [= <-]. exists []. now rewrite app_nil_r.
  - rewrite scrape_pages_step.
    destruct (session (page_url url_suffix h)) as [[w|w]|[|item items]]; cbn [snd].
    + apply IH.
    + discriminate.
    + intros [= <-]. exists []. now rewrite app_nil_r.
    + intros H. apply IH in H. destruct H as (more & ->).
      rewrite scrape_listings_app, <- app_assoc. eauto.
Qed.

(** Once a failed page has been reached, the prices of the page after
    it are collected. *)
Lemma scrape_pages_after_failure session url_suffix k what next listings
      before after prices ps :
  session (page_url url_suffix k) = Raises (RequestException what) ->
  session (page_url url_suffix next) = Listings listings ->
  extract_prices dec listings <> [] ->
  ~ In k before ->
  In (Get (page_url url_suffix k))
     (fst (scrape_pages dec session url_suffix (before ++ k :: next :: after) prices)) ->
  snd (scrape_pages dec session url_suffix (before ++ k :: next :: after) prices)
    = Returned ps ->
  ps <> [].
Proof.
  intros Hfail Hnext Hne. revert prices.
  induction before as [|h before IH]; intros prices Hnin; cbn [app].
  - intros _. rewrite scrape_pages_step, Hfail. cbn [snd].
    rewrite scrape_pages_step, Hnext.
    destruct listings as [|item items]; [now destruct Hne|]. cbn [snd].
    intros H. apply scrape_pages_grows in H. destruct H as (more & ->).
    rewrite scrape_listings_app.
    destruct (extract_prices dec (item :: items)); [congruence|].
    now destruct prices.
  - assert (Hne' : Get (page_url url_suffix h) <> Get (page_url url_suffix k)).
    { intros E.
      apply (f_equal (fun ev => match ev with Get u => u | _ => EmptyString end)) in E.
      cbv beta iota in E. apply page_url_inj in E. apply Hnin. now left. }
    assert (Hnin' : ~ In k before) by (intros H; apply Hnin; now right).
    rewrite scrape_pages_step.
    destruct (session (page_url url_suffix h)) as [[w|w]|[|item items]];
      cbn [fst snd]; intros Hin.
    + destruct Hin as [E | Hin]; [contradiction|]. now apply IH.
    + destruct Hin as [E | []]. contradiction.
    + destruct Hin as [E | []]. contradiction.
    + destruct Hin as [E | [E | Hin]]; [contradiction | discriminate |].
      now apply IH.
Qed.
End Growth.

Section Aggregator.
Variable dec : N -> option N.

Lemma aggregate_locality_eq session pages locality url_suffix :
  aggregate_locality dec session pages locality url_suffix =
  (fst (scrape_pages dec session url_suffix (range 1 (pages + 1)) []),
   match snd (scrape_pages dec session url_suffix (range 1 (pages + 1)) []) with
   | Returned prices => Returned (aggregate locality prices)
   | Raised e => Raised e
   end).
Proof.
  unfold aggregate_locality, bind, ret.
  destruct (scrape_pages dec session url_suffix (range 1 (pages + 1)) [])
    as [tr [prices|e]]; cbn [fst snd]; [now rewrite app_nil_r | reflexivity].
Qed.

(** C2: if every page fetch of a locality fails with a
    [RequestException], [aggregate_locality] returns the static default
    of that locality, the entry of [DEFAULT_MARKET_PRICES]; for
    "Łódź Bałuty" this is 380000. *)
Theorem all_fetches_fail_gives_default session pages locality url_suffix :
  (forall page_num, 1 <= page_num <= pages ->
     exists what,
       session (page_url url_suffix page_num) = Raises (RequestException what)) ->
  snd (aggregate_locality dec session pages locality url_suffix)
    = Returned (PyInt (default_price locality)) /\
  (forall d, In (locality, d) DEFAULT_MARKET_PRICES -> default_price locality = d) /\
  default_price "Łódź Bałuty" = 380000.
Proof.
  intros Hall. split; [|split].
  - rewrite aggregate_locality_eq, scrape_pages_all_fail.
    + reflexivity.
    + intros p Hp. apply in_range in Hp. apply Hall. lia.
  - intros d Hin. unfold DEFAULT_MARKET_PRICES in Hin. cbn [In] in Hin.
    repeat (destruct Hin as [[= <- <-] | Hin]; [reflexivity|]). contradiction.
  - reflexivity.
Qed.

(** C3 (amended): if a page within the budget has no listing nodes,
    pagination stops at that page: the run is the run whose budget ends
    at that page, no page with a higher index is requested, and the
    result is the one computed from the pages before it (the mean of
    the prices collected so far, or the default if there are none). In
    particular, if page 1 yields the prices 100000, 200000, 300000 and
    page 2 has no listings, the result is 200000.0 and page 2 is the
    last page requested. *)
Theorem empty_page_stops_pagination session pages locality url_suffix :
  (forall k, 1 <= k <= pages ->
     session (page_url url_suffix k) = Listings [] ->
     aggregate_locality dec session pages locality url_suffix
       = aggregate_locality dec session k locality url_suffix /\
     (forall j, k < j ->
        ~ In (Get (page_url url_suffix j))
             (fst (aggregate_locality dec session pages locality url_suffix))) /\
     snd (aggregate_locality dec session pages locality url_suffix)
       = snd (aggregate_locality dec session (k - 1) locality url_suffix)) /\
  (forall listings,
     2 <= pages ->
     session (page_url url_suffix 1) = Listings listings ->
     extract_prices dec listings
       = [F64.of_Z 100000; F64.of_Z 200000; F64.of_Z 300000] ->
     session (page_url url_suffix 2) = Listings [] ->
     aggregate_locality dec session pages locality url_suffix
       = ([Get (page_url url_suffix 1); Sleep F64.lit_0_5;
           Get (page_url url_suffix 2)],
          Returned (PyFloat (F64.of_Z 200000)))).
Proof.
  split.
  - intros k Hk Hempty.
    assert (E : aggregate_locality dec session pages locality url_suffix
                = aggregate_locality dec session k locality url_suffix).
    { rewrite !aggregate_locality_eq.
      rewrite (range_split 1 k (pages + 1)), (range_cons k (pages + 1)) by lia.
      rewrite (range_split 1 k (k + 1)), (range_cons k (k + 1)), (range_nil (k + 1) (k + 1)) by lia.
      now rewrite (scrape_pages_break dec session url_suffix k Hempty). }
    split; [exact E | split].
    + intros j Hj Hin. rewrite E, aggregate_locality_eq in Hin. cbn [fst] in Hin.
      apply scrape_pages_gets in Hin. destruct Hin as (p & Hp & Eu).
      apply page_url_inj in Eu. apply in_range in Hp. lia.
    + rewrite E, !aggregate_locality_eq. cbn [snd].
      rewrite (range_split 1 k (k + 1)), (range_cons k (k + 1)), (range_nil (k + 1) (k + 1)) by lia.
      rewrite (scrape_pages_break_result dec session url_suffix k Hempty).
      now replace (k - 1 + 1) with k by lia.
  - intros listings Hp H1 Hx H2.
    rewrite aggregate_locality_eq.
    rewrite (range_cons 1), (range_cons (1 + 1)) by lia.
    change (1 + 1) with 2.
    rewrite scrape_pages_step, H1.
    destruct listings as [|item items]; [discriminate|].
    rewrite scrape_pages_step, H2.
    fold (extract_prices dec (item :: items)). rewrite Hx. reflexivity.
Qed.
End Aggregator.

Lemma all_fetches_fail_gives_default_witness :
  snd (aggregate_locality ascii_decimal always_timeout 8 "Łódź Bałuty" "lodz-baluty")
  = Returned (PyInt 380000).
Proof.
  destruct (all_fetches_fail_gives_default ascii_decimal always_timeout 8
              "Łódź Bałuty" "lodz-baluty") as [H _].
  - intros page_num _. exists "timeout"%string. reflexivity.
  - exact H.
Defined.

Lemma empty_page_stops_pagination_witness :
  aggregate_locality ascii_decimal three_prices_then_empty 8 "Łódź Bałuty" "lodz-baluty"
  = aggregate_locality ascii_decimal three_prices_then_empty 2 "Łódź Bałuty" "lodz-baluty"
  /\
  aggregate_locality ascii_decimal three_prices_then_empty 8 "Łódź Bałuty" "lodz-baluty"
  = ([Get (page_url "lodz-baluty" 1); Sleep F64.lit_0_5; Get (page_url "lodz-baluty" 2)],
     Returned (PyFloat (F64.of_Z 200000))).
Proof.
  destruct (empty_page_stops_pagination ascii_decimal three_prices_then_empty 8
              "Łódź Bałuty" "lodz-baluty") as [Hstop Hexample].
  split.
  - apply (Hstop 2); [lia | reflexivity].
  - apply (Hexample _ ltac:(lia) eq_refl); reflexivity.
Defined.

(** A first page whose only listing has no price tag contributes no
    price, and yet pages 2 and 3 are requested; the result is the mean
    of page 2. *)
Lemma unpriced_page_does_not_stop :
  unpriced_then_priced (page_url "lodz-baluty" 1) = Listings [NoPriceTag] /\
  extract_prices ascii_decimal [NoPriceTag] = [] /\
  aggregate_locality ascii_decimal unpriced_then_priced 8 "Łódź Bałuty" "lodz-baluty"
  = ([Get (page_url "lodz-baluty" 1); Sleep F64.lit_0_5;
      Get (page_url "lodz-baluty" 2); Sleep F64.lit_0_5;
      Get (page_url "lodz-baluty" 3)],
     Returned (PyFloat (F64.of_Z 500000))).
Proof. repeat split. Qed.



(** C9, on the code: after a request that fails with a
    [RequestException] the next request follows at once, with no sleep
    between the two; so when the first page of "Łódź Bałuty" times out
    and the second is empty, the run consists of the two requests
    alone. *)
Theorem no_delay_after_failed_request :
  (forall dec session url_suffix k what next rest prices,
     session (page_url url_suffix k) = Raises (RequestException what) ->
     exists tr,
       fst (scrape_pages dec session url_suffix (k :: next :: rest) prices)
       = Get (page_url url_suffix k) :: Get (page_url url_suffix next) :: tr /\
       throttled false
         (fst (scrape_pages dec session url_suffix (k :: next :: rest) prices))
       = false) /\
  fst (aggregate_locality ascii_decimal timeout_then_empty 8 "Łódź Bałuty" "lodz-baluty")
    = [Get (page_url "lodz-baluty" 1); Get (page_url "lodz-baluty" 2)] /\
  throttled false
    (fst (aggregate_locality ascii_decimal timeout_then_empty 8
            "Łódź Bałuty" "lodz-baluty")) = false.
Proof.
  split; [|split; reflexivity].
  intros dec session url_suffix k what next rest prices Hfail.
  rewrite scrape_pages_step, Hfail. cbn [fst].
  rewrite scrape_pages_step.
  destruct (session (page_url url_suffix next)) as [[w|w]|[|item items]];
    cbn [fst]; eexists; (split; [reflexivity|]); reflexivity.
Qed.

Section PositivePrices.
Variable dec : N -> option N.

(** C10: a listing whose price text parses to zero leaves the
    collected prices as they were; every collected price is strictly
    positive; and, for a price list no longer than a list can be, a
    mean returned by [aggregate_locality] is strictly positive. *)
Theorem collected_prices_positive session pages locality url_suffix prices :
  snd (scrape_pages dec session url_suffix (range 1 (pages + 1)) []) = Returned prices ->
  Z.of_nat (List.length prices) <= PY_SSIZE_T_MAX ->
  (forall collected stripped x,
     parse_price dec (Some (str_remove 160 stripped)) = Some x ->
     F64.eqb x F64.zero = true ->
     scrape_listing dec collected (PriceTag stripped) = collected) /\
  Forall (fun price => F64.ltb F64.zero price = true) prices /\
  (forall x,
     snd (aggregate_locality dec session pages locality url_suffix)
       = Returned (PyFloat x) ->
     F64.ltb F64.zero x = true).
Proof.
  intros Hrun Hlen.
  assert (Hbig : Forall F64.big prices).
  { eapply scrape_pages_big; [constructor | eassumption]. }
  split; [|split].
  - intros collected stripped x Hparse Hzero. cbn [scrape_listing].
    rewrite Hparse. unfold F64.truthy. now rewrite Hzero.
  - eapply Forall_impl; [|exact Hbig]. intros p. apply F64Facts.big_pos.
  - intros x. rewrite aggregate_locality_eq, Hrun. cbn [snd].
    destruct prices as [|p ps] eqn:Ep; [discriminate|].
    rewrite <- Ep in *. unfold aggregate. rewrite Ep at 1. intros [= <-].
    apply mean_pos; [congruence | assumption | unfold PY_SSIZE_T_MAX in Hlen; lia].
Qed.
End PositivePrices.

Lemma collected_prices_positive_witness :
  snd (aggregate_locality ascii_decimal zero_and_two_prices 8 "Łódź Bałuty" "lodz-baluty")
    = Returned (PyFloat (F64.of_Z 300000)) /\
  F64.ltb F64.zero (F64.of_Z 300000) = true.
Proof.
  split; [reflexivity|].
  destruct (collected_prices_positive ascii_decimal zero_and_two_prices 8
              "Łódź Bałuty" "lodz-baluty" [F64.of_Z 250000; F64.of_Z 350000])
    as (_ & _ & H).
  - reflexivity.
  - unfold PY_SSIZE_T_MAX. simpl. lia.
  - apply H. reflexivity.
Defined.

(** ** Dictionaries *)

Lemma dict_set_keys_new {V} (d : dict V) k v :
  ~ In k (keys d) -> keys (dict_set d k v) = keys d ++ [k].
Proof.
  unfold keys. induction d as [|[k' v'] d IH]; intros Hnin; cbn [dict_set map app fst].
  - reflexivity.
  - destruct (String.eqb_spec k' k) as [-> | Hne].
    + exfalso. apply Hnin. now left.
    + cbn [map fst]. f_equal. apply IH. intros H. apply Hnin. now right.
Qed.

Lemma dict_get_set_same {V} (d : dict V) k v : dict_get (dict_set d k v) k = Some v.
Proof.
  induction d as [|[k' v'] d IH]; cbn [dict_set dict_get].
  - now rewrite String.eqb_refl.
  - destruct (String.eqb_spec k' k) as [-> | Hne]; cbn [dict_get].
    + now rewrite String.eqb_refl.
    + destruct (String.eqb_spec k' k); [contradiction | exact IH].
Qed.

Lemma dict_get_set_other {V} (d : dict V) k v k' :
  k <> k' -> dict_get (dict_set d k v) k' = dict_get d k'.
Proof.
  intros Hne. induction d as [|[k0 v0] d IH]; cbn [dict_set dict_get].
  - destruct (String.eqb_spec k k'); [contradiction | reflexivity].
  - destruct (String.eqb_spec k0 k) as [-> | Hne0]; cbn [dict_get].
    + destruct (String.eqb_spec k k'); [contradiction | reflexivity].
    + now rewrite IH.
Qed.

(** ** The monad of traces *)

Lemma bind_eq {A B} (m : M A) (k : A -> M B) :
  bind m k =
  match snd m with
  | Returned a => (fst m ++ fst (k a), snd (k a))
  | Raised e => (fst m, Raised e)
  end.
Proof. destruct m as [tr [a|e]]; cbn [bind fst snd]; [now destruct (k a) | reflexivity]. Qed.

Lemma fractions_app tr1 tr2 : fractions (tr1 ++ tr2) = fractions tr1 ++ fractions tr2.
Proof.
  induction tr1 as [|[u|x|f m] tr1 IH]; cbn [app fractions]; [reflexivity | | |];
    now rewrite ?IH.
Qed.

Section Survey.
Variable dec : N -> option N.
Variable session : network.
Variable pages : Z.

Lemma scrape_pages_quiet url_suffix page_nums prices :
  filter is_progress (fst (scrape_pages dec session url_suffix page_nums prices)) = [].
Proof.
  revert prices. induction page_nums as [|h rest IH]; intros prices; [reflexivity|].
  rewrite scrape_pages_step.
  destruct (session (page_url url_suffix h)) as [[w|w]|[|item items]];
    cbn [fst filter is_progress]; auto.
Qed.

Lemma aggregate_locality_quiet locality url_suffix :
  filter is_progress (fst (aggregate_locality dec session pages locality url_suffix)) = [].
Proof. rewrite aggregate_locality_eq. apply scrape_pages_quiet. Qed.

Lemma scrape_pages_returns url_suffix page_nums prices :
  only_request_failures session ->
  exists ps, snd (scrape_pages dec session url_suffix page_nums prices) = Returned ps.
Proof.
  intros Hok. revert prices. induction page_nums as [|h rest IH]; intros prices.
  - now exists prices.
  - rewrite scrape_pages_step.
    destruct (session (page_url url_suffix h)) as [[w|w]|[|item items]] eqn:E;
      cbn [snd]; eauto.
    destruct (Hok _ _ E) as (w' & [=]).
Qed.

Lemma aggregate_mean_or_default locality prices :
  mean_or_default locality (aggregate locality prices).
Proof.
  destruct prices as [|p ps]; [now left | right].
  exists (p :: ps). split; [discriminate | reflexivity].
Qed.

Lemma aggregate_locality_returns locality url_suffix :
  only_request_failures session ->
  exists v, snd (aggregate_locality dec session pages locality url_suffix) = Returned v /\
            mean_or_default locality v.
Proof.
  intros Hok. rewrite aggregate_locality_eq. cbn [snd].
  destruct (scrape_pages_returns url_suffix (range 1 (pages + 1)) [] Hok) as (ps & ->).
  eexists. split; [reflexivity | apply aggregate_mean_or_default].
Qed.

Lemma all_mean_or_default_set d locality v :
  all_mean_or_default d -> mean_or_default locality v ->
  ~ In locality (keys d) ->
  all_mean_or_default (dict_set d locality v).
Proof.
  intros Hd Hv Hnin l Hl. rewrite dict_set_keys_new in Hl by assumption.
  apply in_app_or in Hl. destruct Hl as [Hl | [<- | []]].
  - rewrite dict_get_set_other by (intros ->; contradiction). now apply Hd.
  - rewrite dict_get_set_same. eauto.
Qed.

Lemma call_progress_returns progress_callback fraction message :
  returns_always progress_callback ->
  snd (call_progress progress_callback fraction message) = Returned tt.
Proof.
  intros Hcb. destruct progress_callback as [f|]; [|reflexivity].
  unfold call_progress. rewrite bind_eq. cbn [emit snd fst].
  now rewrite (Hcb f eq_refl).
Qed.

Lemma survey_loop_returns progress_callback total items idx market_prices :
  only_request_failures session ->
  returns_always progress_callback ->
  NoDup (keys market_prices ++ map fst items) ->
  all_mean_or_default market_prices ->
  exists d,
    snd (survey_loop dec session pages progress_callback total idx items market_prices)
      = Returned d /\
    keys d = keys market_prices ++ map fst items /\
    all_mean_or_default d.
Proof.
  intros Hok Hcb. revert idx market_prices.
  induction items as [|[locality url_suffix] items IH]; intros idx mp Hnd Hmp.
  - exists mp. cbn [survey_loop ret snd map]. now rewrite app_nil_r.
  - cbn [survey_loop]. rewrite bind_eq, call_progress_returns by assumption.
    cbn [snd]. rewrite bind_eq.
    destruct (aggregate_locality_returns locality url_suffix Hok) as (v & -> & Hv).
    cbn [snd]. rewrite bind_eq, call_progress_returns by assumption. cbn [snd].
    cbn [map fst] in Hnd.
    assert (Hnin : ~ In locality (keys mp)).
    { intros Hin. apply NoDup_remove_2 in Hnd. apply Hnd.
      apply in_or_app. now left. }
    destruct (IH (idx + 1) (dict_set mp locality v)) as (d & Hd & Hkeys & Hall).
    + rewrite dict_set_keys_new by assumption.
      rewrite <- app_assoc. exact Hnd.
    + now apply all_mean_or_default_set.
    + exists d. split; [exact Hd | split; [|exact Hall]].
      rewrite Hkeys, dict_set_keys_new by assumption.
      now rewrite <- app_assoc.
Qed.
End Survey.


Lemma call_progress_some f fraction message :
  call_progress (Some f) fraction message =
  ([Progress fraction message],
   match f fraction message with None => Returned tt | Some e => Raised e end).
Proof.
  unfold call_progress. rewrite bind_eq. cbn [emit fst snd].
  now destruct (f fraction message).
Qed.

Lemma filter_progress_fractions tr : filter is_progress tr = [] -> fractions tr = [].
Proof.
  induction tr as [|[u|x|f m] tr IH]; cbn [filter is_progress fractions]; auto.
  discriminate.
Qed.

Lemma filter_progress_complement tr :
  filter is_progress tr = [] -> filter (fun ev => negb (is_progress ev)) tr = tr.
Proof.
  induction tr as [|[u|x|f m] tr IH]; cbn [filter is_progress negb]; intros H;
    try discriminate; try reflexivity; now rewrite IH.
Qed.

Section SurveyProgress.
Variable dec : N -> option N.
Variable session : network.
Variable pages : Z.

Lemma survey_loop_fractions f total items idx market_prices d :
  snd (survey_loop dec session pages (Some f) total idx items market_prices)
    = Returned d ->
  fractions (fst (survey_loop dec session pages (Some f) total idx items market_prices))
    = reported_fractions total idx (List.length items).
Proof.
  revert idx market_prices.
  induction items as [|[locality url_suffix] items IH]; intros idx mp; [reflexivity|].
  cbn [survey_loop List.length reported_fractions].
  rewrite bind_eq, call_progress_some. cbn [fst snd].
  destruct (f (fraction_started idx total) _); [discriminate|].
  rewrite bind_eq.
  pose proof (aggregate_locality_quiet dec session pages locality url_suffix) as Hq.
  apply filter_progress_fractions in Hq.
  destruct (snd (aggregate_locality dec session pages locality url_suffix)) as [v|e];
    [|discriminate].
  rewrite bind_eq, call_progress_some. cbn [fst snd].
  destruct (f (fraction_finished idx total) _); [discriminate|].
  cbn [fst snd app fractions]. intros Hd.
  rewrite fractions_app, Hq. cbn [app fractions]. f_equal. f_equal.
  eapply IH. exact Hd.
Qed.

Lemma survey_loop_observer f total items idx market_prices :
  (forall fraction message, f fraction message = None) ->
  snd (survey_loop dec session pages (Some f) total idx items market_prices)
    = snd (survey_loop dec session pages None total idx items market_prices) /\
  filter (fun ev => negb (is_progress ev))
    (fst (survey_loop dec session pages (Some f) total idx items market_prices))
    = fst (survey_loop dec session pages None total idx items market_prices) /\
  filter is_progress
    (fst (survey_loop dec session pages None total idx items market_prices)) = [].
Proof.
  intros Hf. revert idx market_prices.
  induction items as [|[locality url_suffix] items IH]; intros idx mp.
  - repeat split.
  - cbn [survey_loop].
    rewrite !bind_eq, !call_progress_some, !Hf. cbn [call_progress ret fst snd app].
    pose proof (aggregate_locality_quiet dec session pages locality url_suffix) as Hq.
    destruct (snd (aggregate_locality dec session pages locality url_suffix)) as [v|e].
    + rewrite !bind_eq. cbn [ret fst snd app].
      destruct (IH (idx + 1) (dict_set mp locality v)) as (Hs & Ht & Hn).
      cbn [filter is_progress negb].
      rewrite !filter_app. cbn [filter is_progress negb].
      rewrite Hq, Hn, Ht, (filter_progress_complement _ Hq). auto.
    + cbn [fst snd filter is_progress negb].
      rewrite Hq, (filter_progress_complement _ Hq). auto.
Qed.
End SurveyProgress.

Lemma nondecreasing_firstn n xs :
  nondecreasing xs = true -> nondecreasing (firstn n xs) = true.
Proof.
  revert n. induction xs as [|x xs IH]; intros n H; [now destruct n|].
  destruct n as [|n]; [reflexivity|]. cbn [firstn].
  destruct xs as [|y xs]; [now destruct n|].
  cbn [nondecreasing] in H. apply andb_true_iff in H. destruct H as [Hxy H].
  specialize (IH n H).
  destruct n as [|n]; [reflexivity|].
  cbn [firstn nondecreasing] in *. now rewrite Hxy, IH.
Qed.

Lemma forallb_firstn {A} (p : A -> bool) n xs :
  forallb p xs = true -> forallb p (firstn n xs) = true.
Proof.
  revert n. induction xs as [|x xs IH]; intros n H; [now destruct n|].
  destruct n as [|n]; [reflexivity|]. cbn [firstn forallb] in *.
  apply andb_true_iff in H. destruct H as [Hx H]. now rewrite Hx, IH.
Qed.

Section SurveyAborted.
Variable dec : N -> option N.
Variable session : network.
Variable pages : Z.

(** Whether the survey returns or is cut short by an exception, what
    it has reported so far is an initial part of the full report. *)
Lemma survey_loop_fractions_prefix f total items idx market_prices :
  exists n,
    fractions (fst (survey_loop dec session pages (Some f) total idx items market_prices))
    = firstn n (reported_fractions total idx (List.length items)).
Proof.
  revert idx market_prices.
  induction items as [|[locality url_suffix] items IH]; intros idx mp;
    [now exists 0%nat|].
  cbn [survey_loop List.length reported_fractions].
  rewrite bind_eq, call_progress_some. cbn [fst snd].
  destruct (f (fraction_started idx total) _); [now exists 1%nat|].
  rewrite bind_eq.
  pose proof (aggregate_locality_quiet dec session pages locality url_suffix) as Hq.
  apply filter_progress_fractions in Hq.
  destruct (snd (aggregate_locality dec session pages locality url_suffix)) as [v|e].
  - rewrite bind_eq, call_progress_some. cbn [fst snd].
    destruct (f (fraction_finished idx total) _).
    + exists 2%nat. cbn [fst app fractions firstn].
      rewrite fractions_app, Hq. reflexivity.
    + destruct (IH (idx + 1) (dict_set mp locality v)) as (n & Hn).
      exists (S (S n)). cbn [fst app fractions firstn].
      rewrite fractions_app, Hq. cbn [app fractions]. now rewrite Hn.
  - exists 1%nat. cbn [fst app fractions firstn]. now rewrite Hq.
Qed.
End SurveyAborted.

(** C6: in every survey run with an observer the fractions of the
    progress events never decrease and all lie in [0, 1], also when the
    run is cut short by an exception; when the run returns, the fraction
    of the last event is exactly 1.0. *)
Theorem progress_fractions_monotone dec pages f session :
  nondecreasing (fractions (fst (scrape_market_prices dec pages (Some f) session))) = true /\
  forallb in_unit_interval
    (fractions (fst (scrape_market_prices dec pages (Some f) session))) = true /\
  (forall d,
     snd (scrape_market_prices dec pages (Some f) session) = Returned d ->
     last (fractions (fst (scrape_market_prices dec pages (Some f) session))) F64.zero
       = F64.one).
Proof.
  unfold scrape_market_prices.
  destruct (survey_loop_fractions_prefix dec session pages f
              (Z.of_nat (List.length LOCALITY_URL_MAP)) LOCALITY_URL_MAP 0 [])
    as (n & Hn).
  split; [|split].
  - rewrite Hn. now apply nondecreasing_firstn.
  - rewrite Hn. now apply forallb_firstn.
  - intros d Hd. now rewrite (survey_loop_fractions _ _ _ _ _ _ _ _ _ Hd).
Qed.

(** C8: over the same network, a survey with an observer that returns
    from every call and a survey without an observer end in the same
    outcome, with the same dictionary of prices, and perform the same
    requests and sleeps; the survey without an observer makes no
    observer call. *)
Theorem progress_callback_has_no_effect dec pages f session :
  (forall fraction message, f fraction message = None) ->
  snd (scrape_market_prices dec pages (Some f) session)
    = snd (scrape_market_prices dec pages None session) /\
  filter (fun ev => negb (is_progress ev))
    (fst (scrape_market_prices dec pages (Some f) session))
    = fst (scrape_market_prices dec pages None session) /\
  (forall fraction message,
     ~ In (Progress fraction message)
          (fst (scrape_market_prices dec pages None session))).
Proof.
  intros Hf. unfold scrape_market_prices.
  destruct (survey_loop_observer dec session pages f
              (Z.of_nat (List.length LOCALITY_URL_MAP)) LOCALITY_URL_MAP 0 [] Hf)
    as (Hs & Ht & Hn).
  repeat split; try assumption.
  intros fraction message Hin.
  assert (H : In (Progress fraction message)
                 (filter is_progress
                    (fst (survey_loop dec session pages None
                            (Z.of_nat (List.length LOCALITY_URL_MAP)) 0
                            LOCALITY_URL_MAP [])))).
  { apply filter_In. split; [exact Hin | reflexivity]. }
  rewrite Hn in H. exact H.
Qed.

(** C7: if the survey raises an exception, pressing the button leaves
    the market prices of the session as they were (the previous result,
    or the defaults when there was none) and the time of the last
    survey untouched, clears the in-progress flag, and ends by showing
    the failure messages. *)
Theorem failed_survey_keeps_market_prices dec now session st e :
  snd (scrape_market_prices dec 8 (Some update_progress) session) = Raised e ->
  market_prices (fst (press_button dec now session st))
    = match market_prices st with
      | Some prices => Some prices
      | None => Some default_market_prices
      end /\
  last_scraped (fst (press_button dec now session st)) = last_scraped st /\
  scraping_in_progress (fst (press_button dec now session st)) = Some false /\
  exists drawn_before,
    snd (press_button dec now session st) =
    drawn_before ++
    [ SidebarError ("Błąd podczas scrapowania: " ++ str_of_exn e);
      StatusError "❌ Błąd podczas scrapowania" ].
Proof.
  intros H. unfold press_button.
  destruct (scrape_market_prices dec 8 (Some update_progress) session) as [tr r].
  cbn [snd] in H. subst r. cbn [fst snd market_prices last_scraped scraping_in_progress init_session].
  repeat split.
  exists (BarProgress (PyInt 0) :: drawn tr). reflexivity.
Qed.


Lemma progress_fractions_monotone_witness :
  last (fractions (fst (scrape_market_prices ascii_decimal 8 (Some update_progress)
                          three_prices_then_empty))) F64.zero = F64.one.
Proof.
  destruct (progress_fractions_monotone ascii_decimal 8 update_progress
              three_prices_then_empty) as (_ & _ & H).
  eapply H. vm_compute. reflexivity.
Defined.

Lemma failed_survey_keeps_market_prices_witness :
  market_prices
    (fst (press_button ascii_decimal 0 always_crashes
            {| market_prices := None; last_scraped := None;
               scraping_in_progress := None |}))
  = Some default_market_prices.
Proof.
  destruct (failed_survey_keeps_market_prices ascii_decimal 0 always_crashes
              {| market_prices := None; last_scraped := None;
                 scraping_in_progress := None |}
              (OtherException "parser error") eq_refl) as [H _].
  exact H.
Defined.

Lemma progress_callback_has_no_effect_witness :
  snd (scrape_market_prices ascii_decimal 8 (Some silent_observer) three_prices_then_empty)
  = snd (scrape_market_prices ascii_decimal 8 None three_prices_then_empty).
Proof.
  destruct (progress_callback_has_no_effect ascii_decimal 8 silent_observer
              three_prices_then_empty) as [H _].
  - reflexivity.
  - exact H.
Defined.

(* ================================================================== *)
(** * Further properties of the scraper *)

(** ** What [parse_price] reads *)

Lemma parse_price_digits dec (s : text) :
  dec 32%N = None -> dec 160%N = None ->
  parse_price dec (Some s) =
  match digits_of dec s with
  | [] => None
  | ds => Some (F64.of_Z (number_of ds))
  end.
Proof.
  intros H32 H160. rewrite parse_price_eq. now rewrite !digits_of_str_remove.
Qed.

(** X1: [parse_price] reads the decimal digits of its argument and
    nothing else: two texts with the same digits in the same order get
    the same result, whatever stands between the digits. In particular
    the removal of no-break spaces before the call (line 81) changes
    nothing. *)
Theorem parse_price_reads_digits_only dec (s t : text) :
  dec 32%N = None -> dec 160%N = None ->
  (digits_of dec s = digits_of dec t ->
   parse_price dec (Some s) = parse_price dec (Some t)) /\
  parse_price dec (Some (filter (is_digit dec) s)) = parse_price dec (Some s) /\
  parse_price dec (Some (str_remove 160 s)) = parse_price dec (Some s).
Proof.
  intros H32 H160. split; [|split].
  - intros E. rewrite !parse_price_digits by assumption. now rewrite E.
  - rewrite !parse_price_digits by assumption.
    change (filter (is_digit dec) s) with (re_sub_non_digits dec s).
    now rewrite digits_of_clean.
  - rewrite !parse_price_digits by assumption.
    now rewrite digits_of_str_remove.
Qed.

Lemma parse_price_reads_digits_only_witness :
  parse_price ascii_decimal (Some (text_of "1 250 000 z"))
  = parse_price ascii_decimal (Some (text_of "1,250,000")).
Proof.
  destruct (parse_price_reads_digits_only ascii_decimal
              (text_of "1 250 000 z") (text_of "1,250,000") eq_refl eq_refl)
    as [H _].
  apply H. reflexivity.
Defined.

Lemma int_of_digits_uint_acc d acc :
  int_of_digits ascii_decimal (Zpos acc) (text_of (NilEmpty.string_of_uint d))
  = Zpos (Pos.of_uint_acc d acc).
Proof.
  revert acc.
  induction d as [|d IH|d IH|d IH|d IH|d IH|d IH|d IH|d IH|d IH|d IH];
    intros acc; [reflexivity|..];
    cbn [NilEmpty.string_of_uint text_of int_of_digits Pos.of_uint_acc];
    match goal with
    | |- context [ascii_decimal ?c] =>
        let v := eval vm_compute in (ascii_decimal c) in
        change (ascii_decimal c) with v
    end; cbv beta iota; rewrite <- IH; f_equal; lia.
Qed.

Lemma int_of_digits_uint d :
  int_of_digits ascii_decimal 0 (text_of (NilEmpty.string_of_uint d))
  = Z.of_N (Pos.of_uint d).
Proof.
  induction d as [|d IH|d IH|d IH|d IH|d IH|d IH|d IH|d IH|d IH|d IH];
    [reflexivity|..];
    cbn [NilEmpty.string_of_uint text_of int_of_digits Pos.of_uint];
    match goal with
    | |- context [ascii_decimal ?c] =>
        let v := eval vm_compute in (ascii_decimal c) in
        change (ascii_decimal c) with v
    end; cbv beta iota;
    match goal with
    | |- int_of_digits _ ?a _ = _ =>
        let v := eval vm_compute in a in change a with v
    end;
    [exact IH | apply int_of_digits_uint_acc..].
Qed.

Lemma number_of_str_of_int n :
  number_of (digits_of ascii_decimal (text_of (str_of_int n))) = Z.abs n.
Proof.
  unfold number_of. rewrite <- int_of_digits_fold. unfold str_of_int.
  destruct n as [|p|p]; [reflexivity| |].
  - cbn [Z.to_int NilEmpty.string_of_int]. rewrite int_of_digits_uint.
    now rewrite DecimalPos.Unsigned.of_to.
  - cbn [Z.to_int NilEmpty.string_of_int text_of int_of_digits].
    change (ascii_decimal (N_of_ascii "-")) with (@None N). cbv beta iota.
    rewrite int_of_digits_uint. now rewrite DecimalPos.Unsigned.of_to.
Qed.


(** ** What the listing loop collects *)

Lemma extract_prices_app dec (a b : list listing) :
  extract_prices dec (a ++ b) = extract_prices dec a ++ extract_prices dec b.
Proof.
  unfold extract_prices at 1. unfold scrape_listings. rewrite fold_left_app.
  fold (scrape_listings dec [] a). fold (extract_prices dec a).
  fold (scrape_listings dec (extract_prices dec a) b).
  apply scrape_listings_app.
Qed.

Lemma extract_prices_cons dec item (items : list listing) :
  extract_prices dec (item :: items)
  = extract_prices dec [item] ++ extract_prices dec items.
Proof. exact (extract_prices_app dec [item] items). Qed.

Lemma extract_prices_one dec item :
  (List.length (extract_prices dec [item]) <= 1)%nat /\
  (has_price_tag item = false -> extract_prices dec [item] = []).
Proof.
  unfold extract_prices, scrape_listings. cbn [fold_left].
  destruct item as [|t|e]; cbn [scrape_listing has_price_tag List.length];
    try (split; [lia | reflexivity]).
  split; [|discriminate].
  destruct (parse_price dec (Some (str_remove 160 t))) as [x|]; [|cbn; lia].
  destruct (F64.truthy x); cbn; lia.
Qed.

(** X3: the prices of a page are collected listing by listing, in the
    order of the listings: the prices of two lists of listings put
    together are the prices of the first followed by those of the
    second, and they are appended to the prices collected before.
    A listing gives at most one price, and one without a price tag or
    whose lookup raises gives none, as if it were not on the page. *)
Theorem extract_prices_listing_by_listing dec (a b : list listing)
        (prices : list float) :
  extract_prices dec (a ++ b) = extract_prices dec a ++ extract_prices dec b /\
  scrape_listings dec prices a = prices ++ extract_prices dec a /\
  (List.length (extract_prices dec a) <= List.length (filter has_price_tag a))%nat /\
  extract_prices dec (filter has_price_tag a) = extract_prices dec a.
Proof.
  split; [apply extract_prices_app | split; [apply scrape_listings_app | split]].
  - induction a as [|item a IH]; [cbn; lia|].
    rewrite extract_prices_cons, length_app. cbn [filter].
    destruct (extract_prices_one dec item) as [Hle Hnone].
    destruct (has_price_tag item) eqn:E.
    + cbn [List.length]. lia.
    + rewrite (Hnone eq_refl). cbn [List.length]. lia.
  - induction a as [|item a IH]; [reflexivity|].
    rewrite (extract_prices_cons dec item a). cbn [filter].
    destruct (extract_prices_one dec item) as [_ Hnone].
    destruct (has_price_tag item) eqn:E.
    + rewrite (extract_prices_cons dec item (filter has_price_tag a)). now rewrite IH.
    + rewrite (Hnone eq_refl). exact IH.
Qed.

(** ** What the page loop requests *)

Section Requests.
Variable dec : N -> option N.
Variable session : network.
Variable url_suffix : string.

Lemma scrape_pages_collects page_nums prices ps :
  snd (scrape_pages dec session url_suffix page_nums prices) = Returned ps ->
  ps = prices ++
       flat_map (fun url => prices_of dec (session url))
         (gets (fst (scrape_pages dec session url_suffix page_nums prices))).
Proof.
  revert prices. induction page_nums as [|h rest IH]; intros prices.
  - cbn. intros [= <-]. now rewrite app_nil_r.
  - rewrite scrape_pages_step.
    destruct (session (page_url url_suffix h)) as [[w|w]|[|item items]] eqn:E;
      cbn [fst snd gets flat_map].
    + intros H. rewrite E. cbn [prices_of app]. now apply IH.
    + discriminate.
    + intros [= <-]. rewrite E. cbn. now rewrite app_nil_r.
    + intros H. rewrite E. cbn [prices_of]. apply IH in H.
      rewrite H, scrape_listings_app. now rewrite <- app_assoc.
Qed.

Lemma scrape_pages_range_gets n : forall a b prices,
  Z.to_nat (b - a) = n ->
  exists k, a <= k <= Z.max a b /\
    gets (fst (scrape_pages dec session url_suffix (range a b) prices))
    = map (page_url url_suffix) (range a k).
Proof.
  induction n as [|n IH]; intros a b prices Hn.
  - exists a. rewrite (range_nil a b), (range_nil a a) by lia.
    split; [lia | reflexivity].
  - rewrite (range_cons a b) by lia. rewrite scrape_pages_step.
    destruct (session (page_url url_suffix a)) as [[w|w]|[|item items]];
      cbn [fst gets].
    + destruct (IH (a + 1) b prices ltac:(lia)) as (k & Hk & ->).
      exists k. split; [lia|]. now rewrite (range_cons a k) by lia.
    + exists (a + 1). split; [lia|].
      now rewrite (range_cons a (a + 1)), (range_nil (a + 1) (a + 1)) by lia.
    + exists (a + 1). split; [lia|].
      now rewrite (range_cons a (a + 1)), (range_nil (a + 1) (a + 1)) by lia.
    + destruct (IH (a + 1) b (scrape_listings dec prices (item :: items)) ltac:(lia))
        as (k & Hk & ->).
      exists k. split; [lia|]. now rewrite (range_cons a k) by lia.
Qed.

Lemma scrape_pages_sleeps page_nums prices :
  Forall (fun seconds => seconds = F64.lit_0_5)
    (sleeps (fst (scrape_pages dec session url_suffix page_nums prices))) /\
  List.length (sleeps (fst (scrape_pages dec session url_suffix page_nums prices)))
  = List.length
      (filter (fun url => has_listings (session url))
         (gets (fst (scrape_pages dec session url_suffix page_nums prices)))).
Proof.
  revert prices. induction page_nums as [|h rest IH]; intros prices.
  - cbn. split; [constructor | reflexivity].
  - rewrite scrape_pages_step.
    destruct (session (page_url url_suffix h)) as [[w|w]|[|item items]] eqn:E;
      cbn [fst gets sleeps filter]; rewrite ?E; cbn [has_listings List.length].
    + apply IH.
    + split; [constructor | reflexivity].
    + split; [constructor | reflexivity].
    + destruct (IH (scrape_listings dec prices (item :: items))) as [Hall Hlen].
      split; [now constructor | now rewrite Hlen].
Qed.
End Requests.

Lemma NoDup_map_injective {A B} (f : A -> B) (l : list A) :
  (forall x y, f x = f y -> x = y) -> NoDup l -> NoDup (map f l).
Proof.
  intros Hinj. induction 1 as [|x l Hx Hl IH]; cbn [map]; constructor; [|exact IH].
  intros Hin. apply in_map_iff in Hin. destruct Hin as (y & E & Hy).
  apply Hinj in E. now subst y.
Qed.

Lemma range_NoDup a b : NoDup (range a b).
Proof.
  unfold range. apply NoDup_map_injective; [|apply seq_NoDup].
  intros i j H. lia.
Qed.

(** X4: the prices a locality's mean is taken over are exactly the
    prices of the pages that were requested, page after page in the
    order of the requests. *)
Theorem collected_prices_are_those_of_requested_pages
        dec session pages locality url_suffix v :
  snd (aggregate_locality dec session pages locality url_suffix) = Returned v ->
  v = aggregate locality
        (flat_map (fun url => prices_of dec (session url))
           (gets (fst (aggregate_locality dec session pages locality url_suffix)))).
Proof.
  rewrite aggregate_locality_eq. cbn [fst snd].
  destruct (snd (scrape_pages dec session url_suffix (range 1 (pages + 1)) []))
    as [ps|e] eqn:E; [|discriminate].
  intros [= <-]. apply scrape_pages_collects in E. now rewrite E at 1.
Qed.

Lemma collected_prices_are_those_of_requested_pages_witness :
  PyFloat (F64.of_Z 200000)
  = aggregate "Łódź Bałuty"
      (flat_map (fun url => prices_of ascii_decimal (three_prices_then_empty url))
         (gets (fst (aggregate_locality ascii_decimal three_prices_then_empty 8
                       "Łódź Bałuty" "lodz-baluty")))).
Proof.
  apply (collected_prices_are_those_of_requested_pages ascii_decimal
           three_prices_then_empty 8 "Łódź Bałuty" "lodz-baluty").
  reflexivity.
Defined.

(** X5: for a locality the pages 1, 2, ..., k are requested, in this
    order and each once, for some k no larger than the page budget;
    nothing else is requested. With a budget of zero or less no request
    is made and the locality gets its default. *)
Theorem requests_are_the_first_pages dec session pages locality url_suffix :
  (exists k, 0 <= k <= Z.max 0 pages /\
     gets (fst (aggregate_locality dec session pages locality url_suffix))
     = map (page_url url_suffix) (range 1 (k + 1))) /\
  NoDup (gets (fst (aggregate_locality dec session pages locality url_suffix))) /\
  (pages <= 0 ->
   aggregate_locality dec session pages locality url_suffix
   = ([], Returned (PyInt (default_price locality)))).
Proof.
  rewrite aggregate_locality_eq. cbn [fst].
  destruct (scrape_pages_range_gets dec session url_suffix
              (Z.to_nat (pages + 1 - 1)) 1 (pages + 1) [] eq_refl) as (k & Hk & E).
  split; [|split].
  - exists (k - 1). split; [lia|]. now replace (k - 1 + 1) with k by lia.
  - rewrite E. apply NoDup_map_injective; [|apply range_NoDup].
    intros i j. apply page_url_inj.
  - intros Hp. now rewrite (range_nil 1 (pages + 1)) by lia.
Qed.

Lemma requests_are_the_first_pages_witness :
  aggregate_locality ascii_decimal three_prices_then_empty 0 "Łódź Bałuty" "lodz-baluty"
  = ([], Returned (PyInt 380000)).
Proof.
  destruct (requests_are_the_first_pages ascii_decimal three_prices_then_empty 0
              "Łódź Bałuty" "lodz-baluty") as (_ & _ & H).
  apply H. lia.
Defined.

(** X6: every sleep of a locality lasts 0.5, and there is exactly one
    sleep for each requested page that had listings: never more sleeps
    than requests. *)
Theorem one_sleep_per_page_with_listings dec session pages locality url_suffix :
  Forall (fun seconds => seconds = F64.lit_0_5)
    (sleeps (fst (aggregate_locality dec session pages locality url_suffix))) /\
  List.length (sleeps (fst (aggregate_locality dec session pages locality url_suffix)))
  = List.length
      (filter (fun url => has_listings (session url))
         (gets (fst (aggregate_locality dec session pages locality url_suffix)))) /\
  (List.length (sleeps (fst (aggregate_locality dec session pages locality url_suffix)))
   <= List.length (gets (fst (aggregate_locality dec session pages locality url_suffix))))%nat.
Proof.
  rewrite aggregate_locality_eq. cbn [fst].
  destruct (scrape_pages_sleeps dec session url_suffix (range 1 (pages + 1)) [])
    as [Hall Hlen].
  split; [exact Hall | split; [exact Hlen|]].
  rewrite Hlen. apply filter_length_le.
Qed.

(** ** How the survey is put together *)

Lemma gets_app tr1 tr2 : gets (tr1 ++ tr2) = gets tr1 ++ gets tr2.
Proof.
  induction tr1 as [|[u|x|f m] tr1 IH]; cbn [app gets]; [reflexivity | | |];
    now rewrite ?IH.
Qed.

Lemma messages_app tr1 tr2 : messages (tr1 ++ tr2) = messages tr1 ++ messages tr2.
Proof.
  induction tr1 as [|[u|x|f m] tr1 IH]; cbn [app messages]; [reflexivity | | |];
    now rewrite ?IH.
Qed.

Lemma filter_progress_messages tr : filter is_progress tr = [] -> messages tr = [].
Proof.
  induction tr as [|[u|x|f m] tr IH]; cbn [filter is_progress messages]; auto.
  discriminate.
Qed.

Lemma gets_call_progress progress_callback fraction message :
  gets (fst (call_progress progress_callback fraction message)) = [].
Proof.
  destruct progress_callback as [f|]; [|reflexivity].
  rewrite call_progress_some. reflexivity.
Qed.

Lemma aggregate_locality_value dec session pages locality url_suffix v :
  snd (aggregate_locality dec session pages locality url_suffix) = Returned v ->
  mean_or_default locality v.
Proof.
  rewrite aggregate_locality_eq. cbn [snd].
  destruct (snd (scrape_pages dec session url_suffix (range 1 (pages + 1)) []));
    [|discriminate].
  intros [= <-]. apply aggregate_mean_or_default.
Qed.

Section SurveyParts.
Variable dec : N -> option N.
Variable session : network.
Variable pages : Z.
Variable progress_callback : option callback.
Variable total : Z.

(** What a returned run of the loop has stored: the entries it started
    with, and for each locality it went through the value its
    aggregation returned. *)
Lemma survey_loop_entries items : forall idx market_prices d,
  NoDup (keys market_prices ++ map fst items) ->
  snd (survey_loop dec session pages progress_callback total idx items market_prices)
    = Returned d ->
  keys d = keys market_prices ++ map fst items /\
  (forall locality, In locality (keys market_prices) ->
     dict_get d locality = dict_get market_prices locality) /\
  (forall locality url_suffix, In (locality, url_suffix) items ->
     exists v,
       snd (aggregate_locality dec session pages locality url_suffix) = Returned v /\
       dict_get d locality = Some v).
Proof.
  induction items as [|[locality url_suffix] items IH]; intros idx mp d Hnd.
  - cbn. intros [= <-]. rewrite app_nil_r. repeat split. intros l u [].
  - cbn [survey_loop]. rewrite bind_eq.
    destruct (snd (call_progress progress_callback _ _)); [|discriminate].
    cbn [snd]. rewrite bind_eq.
    destruct (snd (aggregate_locality dec session pages locality url_suffix))
      as [v|e] eqn:Ev; [|discriminate].
    cbn [snd]. rewrite bind_eq.
    destruct (snd (call_progress progress_callback _ _)); [|discriminate].
    cbn [snd]. intros Hd.
    cbn [map fst] in Hnd.
    assert (Hnin : ~ In locality (keys mp)).
    { intros Hin. apply NoDup_remove_2 in Hnd. apply Hnd.
      apply in_or_app. now left. }
    assert (Hnin' : ~ In locality (map fst items)).
    { intros Hin. apply NoDup_remove_2 in Hnd. apply Hnd.
      apply in_or_app. now right. }
    destruct (IH (idx + 1) (dict_set mp locality v) d) as (Hkeys & Hold & Hnew).
    + rewrite dict_set_keys_new by assumption. now rewrite <- app_assoc.
    + exact Hd.
    + rewrite dict_set_keys_new in Hkeys, Hold by assumption.
      split; [|split].
      * rewrite Hkeys. now rewrite <- app_assoc.
      * intros l Hl. rewrite Hold by (apply in_or_app; now left).
        apply dict_get_set_other. intros ->. contradiction.
      * intros l u [[= <- <-] | Hin].
        -- exists v. split; [exact Ev|].
           rewrite Hold by (apply in_or_app; right; now left).
           apply dict_get_set_same.
        -- now apply Hnew.
Qed.

End SurveyParts.

Section Isolation.
Variable dec : N -> option N.
Variables session1 session2 : network.
Variable url_suffix : string.

Lemma scrape_pages_ext page_nums : forall prices,
  (forall p, In p page_nums ->
     session1 (page_url url_suffix p) = session2 (page_url url_suffix p)) ->
  scrape_pages dec session1 url_suffix page_nums prices
  = scrape_pages dec session2 url_suffix page_nums prices.
Proof.
  induction page_nums as [|h rest IH]; intros prices Hsame; [reflexivity|].
  rewrite !scrape_pages_step, <- (Hsame h) by now left.
  destruct (session1 (page_url url_suffix h)) as [[w|w]|[|item items]];
    try reflexivity; rewrite IH by (intros p Hp; apply Hsame; now right);
    reflexivity.
Qed.
End Isolation.

(** X7: the survey puts together what the localities give one by one:
    when it returns, its dictionary has exactly the known localities as
    keys and holds for each of them the value that the aggregation of
    this locality alone returns; the observer has no part in it. *)
Theorem survey_holds_each_locality_value dec pages progress_callback session d :
  snd (scrape_market_prices dec pages progress_callback session) = Returned d ->
  keys d = keys LOCALITY_URL_MAP /\
  forall locality url_suffix, In (locality, url_suffix) LOCALITY_URL_MAP ->
    exists v,
      snd (aggregate_locality dec session pages locality url_suffix) = Returned v /\
      dict_get d locality = Some v /\
      mean_or_default locality v.
Proof.
  unfold scrape_market_prices. intros Hd.
  apply survey_loop_entries in Hd.
  - destruct Hd as (Hkeys & _ & Hnew). split; [exact Hkeys|].
    intros l u Hin. destruct (Hnew l u Hin) as (v & Hv & Hget).
    exists v. repeat split; try assumption.
    eapply aggregate_locality_value; eassumption.
  - cbn [keys map app]. unfold LOCALITY_URL_MAP. cbn [map fst].
    repeat (constructor; [cbn [In]; intros H; repeat (destruct H as [[=] | H]); exact H|]).
    constructor.
Qed.

Lemma survey_holds_each_locality_value_witness :
  match snd (scrape_market_prices ascii_decimal 8 None three_prices_then_empty) with
  | Returned d => keys d = keys LOCALITY_URL_MAP
  | Raised _ => False
  end.
Proof.
  destruct (snd (scrape_market_prices ascii_decimal 8 None three_prices_then_empty))
    as [d|e] eqn:E.
  - apply (survey_holds_each_locality_value ascii_decimal 8 None
             three_prices_then_empty d E).
  - vm_compute in E. discriminate E.
Defined.

(** X8: the value of a locality depends on the responses to the pages
    of this locality alone: two networks that answer its pages 1 to
    [pages] alike give the same requests, sleeps and result for it,
    however they differ elsewhere. *)
Theorem locality_depends_on_its_pages_only
        dec session1 session2 pages locality url_suffix :
  (forall p, 1 <= p <= pages ->
     session1 (page_url url_suffix p) = session2 (page_url url_suffix p)) ->
  aggregate_locality dec session1 pages locality url_suffix
  = aggregate_locality dec session2 pages locality url_suffix.
Proof.
  intros Hsame. rewrite !aggregate_locality_eq.
  rewrite (scrape_pages_ext dec session1 session2 url_suffix (range 1 (pages + 1)) []).
  - reflexivity.
  - intros p Hp. apply in_range in Hp. apply Hsame. lia.
Qed.

Lemma locality_depends_on_its_pages_only_witness :
  aggregate_locality ascii_decimal timeout_then_empty 1 "Łódź Bałuty" "lodz-baluty"
  = aggregate_locality ascii_decimal always_timeout 1 "Łódź Bałuty" "lodz-baluty".
Proof.
  apply locality_depends_on_its_pages_only.
  intros p Hp. assert (p = 1) by lia. subst p. reflexivity.
Defined.

(** ** The observer of [main] and the exceptions of a survey *)

Section SurveyObserved.
Variable dec : N -> option N.
Variable session : network.
Variable pages : Z.

(** An observer that returns on the fractions the survey reports is as
    good as none. *)
Lemma survey_loop_observer_on (f : callback) total items : forall idx market_prices,
  (forall fraction message,
     In fraction (reported_fractions total idx (List.length items)) ->
     f fraction message = None) ->
  snd (survey_loop dec session pages (Some f) total idx items market_prices)
    = snd (survey_loop dec session pages None total idx items market_prices) /\
  filter (fun ev => negb (is_progress ev))
    (fst (survey_loop dec session pages (Some f) total idx items market_prices))
    = fst (survey_loop dec session pages None total idx items market_prices).
Proof.
  induction items as [|[locality url_suffix] items IH]; intros idx mp Hf.
  - split; reflexivity.
  - cbn [List.length reported_fractions] in Hf.
    cbn [survey_loop].
    rewrite !bind_eq, !call_progress_some.
    rewrite (Hf (fraction_started idx total)) by now left.
    rewrite (Hf (fraction_finished idx total)) by (right; now left).
    cbn [call_progress ret fst snd app].
    pose proof (aggregate_locality_quiet dec session pages locality url_suffix) as Hq.
    destruct (snd (aggregate_locality dec session pages locality url_suffix)) as [v|e].
    + rewrite !bind_eq. cbn [ret fst snd app].
      destruct (IH (idx + 1) (dict_set mp locality v)) as (Hs & Ht).
      { intros fr m Hin. apply Hf. right; right. exact Hin. }
      cbn [filter is_progress negb].
      rewrite !filter_app. cbn [filter is_progress negb].
      rewrite Ht, (filter_progress_complement _ Hq). auto.
    + cbn [fst snd filter is_progress negb].
      rewrite (filter_progress_complement _ Hq). auto.
Qed.

Lemma scrape_pages_raised url_suffix page_nums : forall prices e,
  snd (scrape_pages dec session url_suffix page_nums prices) = Raised e ->
  exists p, In p page_nums /\ session (page_url url_suffix p) = Raises e.
Proof.
  induction page_nums as [|h rest IH]; intros prices e; [discriminate|].
  rewrite scrape_pages_step.
  destruct (session (page_url url_suffix h)) as [[w|w]|[|item items]] eqn:E;
    cbn [snd]; try discriminate.
  - intros H. destruct (IH _ _ H) as (p & Hp & Hr). exists p. split; [now right | exact Hr].
  - intros [= <-]. exists h. split; [now left | exact E].
  - intros H. destruct (IH _ _ H) as (p & Hp & Hr). exists p. split; [now right | exact Hr].
Qed.

Lemma survey_loop_raised total items : forall idx market_prices e,
  snd (survey_loop dec session pages None total idx items market_prices) = Raised e ->
  exists locality url_suffix p,
    In (locality, url_suffix) items /\ 1 <= p <= pages /\
    session (page_url url_suffix p) = Raises e.
Proof.
  induction items as [|[locality url_suffix] items IH]; intros idx mp e; [discriminate|].
  cbn [survey_loop call_progress]. rewrite !bind_eq. cbn [ret fst snd app].
  rewrite aggregate_locality_eq. cbn [fst snd].
  destruct (snd (scrape_pages dec session url_suffix (range 1 (pages + 1)) []))
    as [ps|e'] eqn:E; cbn [snd].
  - rewrite bind_eq. cbn [fst snd]. intros H.
    destruct (IH _ _ _ H) as (l & u & p & Hin & Hp & Hr).
    exists l, u, p. repeat split; try assumption; try lia. now right.
  - intros [= <-]. apply scrape_pages_raised in E. destruct E as (p & Hp & Hr).
    apply in_range in Hp. exists locality, url_suffix, p.
    repeat split; try assumption; try lia. now left.
Qed.
Lemma survey_loop_no_request_exception total items : forall idx market_prices what,
  snd (survey_loop dec session pages None total idx items market_prices)
  <> Raised (RequestException what).
Proof.
  induction items as [|[locality url_suffix] items IH]; intros idx mp w; [discriminate|].
  cbn [survey_loop call_progress]. rewrite !bind_eq. cbn [ret fst snd app].
  rewrite aggregate_locality_eq. cbn [fst snd].
  pose proof (scrape_pages_no_request_exception dec session url_suffix
                (range 1 (pages + 1)) [] w) as Hno.
  destruct (snd (scrape_pages dec session url_suffix (range 1 (pages + 1)) []))
    as [ps|e']; cbn [snd].
  - rewrite bind_eq. cbn [fst snd]. apply IH.
  - intros [= ->]. now apply Hno.
Qed.
End SurveyObserved.

Lemma update_progress_accepts fraction message :
  In fraction (reported_fractions (Z.of_nat (List.length LOCALITY_URL_MAP)) 0
                 (List.length LOCALITY_URL_MAP)) ->
  update_progress fraction message = None.
Proof.
  cbn [List.length LOCALITY_URL_MAP reported_fractions In].
  intros H. repeat (destruct H as [<- | H]; [reflexivity|]). contradiction.
Qed.

(** X9: the progress bar of [main] never refuses a fraction the survey
    reports, so the survey run from the button ends as a survey without
    an observer does, after the same requests and sleeps. An exception
    that leaves it was raised by the request of a page of a known
    locality and is no [RequestException]. *)
Theorem survey_from_button_fails_with_the_network_only dec pages session :
  snd (scrape_market_prices dec pages (Some update_progress) session)
    = snd (scrape_market_prices dec pages None session) /\
  filter (fun ev => negb (is_progress ev))
    (fst (scrape_market_prices dec pages (Some update_progress) session))
    = fst (scrape_market_prices dec pages None session) /\
  (forall e,
     snd (scrape_market_prices dec pages (Some update_progress) session) = Raised e ->
     (exists what, e = OtherException what) /\
     exists locality url_suffix p,
       In (locality, url_suffix) LOCALITY_URL_MAP /\ 1 <= p <= pages /\
       session (page_url url_suffix p) = Raises e).
Proof.
  unfold scrape_market_prices.
  destruct (survey_loop_observer_on dec session pages update_progress
              (Z.of_nat (List.length LOCALITY_URL_MAP)) LOCALITY_URL_MAP 0 [])
    as (Hs & Ht).
  { intros fr m. apply update_progress_accepts. }
  split; [exact Hs | split; [exact Ht|]].
  intros e He. rewrite Hs in He.
  pose proof (survey_loop_raised _ _ _ _ _ _ _ _ He) as (l & u & p & Hin & Hp & Hr).
  split; [|eauto 7].
  destruct e as [w|w]; [|eauto]. exfalso.
  exact (survey_loop_no_request_exception _ _ _ _ _ _ _ _ He).
Qed.

Lemma survey_from_button_fails_with_the_network_only_witness :
  exists what, OtherException "parser error" = OtherException what.
Proof.
  destruct (survey_from_button_fails_with_the_network_only ascii_decimal 8 always_crashes)
    as (_ & _ & H).
  destruct (H (OtherException "parser error") eq_refl) as [Hw _]. exact Hw.
Defined.

(** ** The session of [main] *)

Lemma default_market_prices_surveyed :
  keys default_market_prices = keys LOCALITY_URL_MAP /\
  all_mean_or_default default_market_prices.
Proof.
  split; [reflexivity|].
  intros l Hl. cbn in Hl.
  repeat (destruct Hl as [<- | Hl]; [eexists; split; [reflexivity | now left]|]).
  contradiction.
Qed.

Lemma returned_survey_surveyed dec pages progress_callback session d :
  snd (scrape_market_prices dec pages progress_callback session) = Returned d ->
  keys d = keys LOCALITY_URL_MAP /\ all_mean_or_default d.
Proof.
  unfold scrape_market_prices. intros Hd.
  pose proof Hd as Hd'. apply survey_loop_entries in Hd'.
  - destruct Hd' as (Hkeys & _ & Hnew). split; [exact Hkeys|].
    intros l Hl. cbn [keys map app] in Hkeys. rewrite Hkeys in Hl.
    apply in_map_iff in Hl. destruct Hl as ([l' u] & <- & Hin).
    destruct (Hnew l' u Hin) as (v & Hv & Hget).
    exists v. split; [exact Hget|].
    eapply aggregate_locality_value; eassumption.
  - cbn [keys map app]. unfold LOCALITY_URL_MAP. cbn [map fst].
    repeat (constructor; [cbn [In]; intros H; repeat (destruct H as [[=] | H]); exact H|]).
    constructor.
Qed.

Lemma surveyed_lookup st locality :
  surveyed st -> In locality SELECTBOX_LOCALITIES ->
  exists v, market_avg_price st locality = Some v /\ mean_or_default locality v.
Proof.
  intros (prices & Hmp & Hkeys & Hall) Hin.
  assert (Hk : In locality (keys prices)) by (rewrite Hkeys; exact Hin).
  destruct (Hall locality Hk) as (v & Hget & Hv).
  exists v. split; [|exact Hv].
  unfold market_avg_price. rewrite Hmp, Hget.
  cbn in Hin.
  repeat (destruct Hin as [<- | Hin]; [reflexivity|]). contradiction.
Qed.

(** X10: on a network whose failures are all [RequestException]s,
    pressing the button always succeeds: the session gets the result of
    the survey, with one entry per known locality, and the time of the
    press, the in-progress flag is cleared, and the page ends with the
    full progress bar and the two success messages. *)
Theorem button_succeeds_when_requests_only_fail dec now session st :
  only_request_failures session ->
  exists prices shown,
    press_button dec now session st =
    ({| market_prices := Some prices;
        last_scraped := Some now;
        scraping_in_progress := Some false |},
     shown ++
     [ BarProgress (PyFloat F64.one);
       StatusSuccess "✅ Pobrano ceny rynkowe!";
       SidebarSuccess "Ceny rynkowe zostały zaktualizowane!" ]) /\
    snd (scrape_market_prices dec 8 None session) = Returned prices /\
    keys prices = keys LOCALITY_URL_MAP.
Proof.
  intros Hok.
  destruct (survey_loop_returns dec session 8 None
              (Z.of_nat (List.length LOCALITY_URL_MAP)) LOCALITY_URL_MAP 0 [] Hok)
    as (d & Hd & Hkeys & _).
  - intros f [=].
  - cbn [keys map app]. unfold LOCALITY_URL_MAP. cbn [map fst].
    repeat (constructor; [cbn [In]; intros H; repeat (destruct H as [[=] | H]); exact H|]).
    constructor.
  - intros l [].
  - destruct (survey_loop_observer_on dec session 8 update_progress
                (Z.of_nat (List.length LOCALITY_URL_MAP)) LOCALITY_URL_MAP 0 [])
      as (Hs & _).
    { intros fr m. apply update_progress_accepts. }
    unfold press_button, scrape_market_prices.
    destruct (survey_loop dec session 8 (Some update_progress)
                (Z.of_nat (List.length LOCALITY_URL_MAP)) 0 LOCALITY_URL_MAP [])
      as [tr r].
    cbn [snd] in Hs. rewrite Hs, Hd.
    exists d, (BarProgress (PyInt 0) :: drawn tr).
    repeat split. exact Hkeys.
Qed.

Lemma button_succeeds_when_requests_only_fail_witness :
  exists prices shown,
    press_button ascii_decimal 0 always_timeout fresh_session =
    ({| market_prices := Some prices;
        last_scraped := Some 0;
        scraping_in_progress := Some false |},
     shown ++
     [ BarProgress (PyFloat F64.one);
       StatusSuccess "✅ Pobrano ceny rynkowe!";
       SidebarSuccess "Ceny rynkowe zostały zaktualizowane!" ]).
Proof.
  destruct (button_succeeds_when_requests_only_fail ascii_decimal 0 always_timeout
              fresh_session) as (prices & shown & H & _).
  - intros url e [= <-]. now exists "timeout"%string.
  - exists prices, shown. exact H.
Defined.

(** X11: in every session a user can get to, by loading the page and
    pressing the button any number of times on any networks, the market
    prices hold exactly one entry per known locality, each a default or
    a mean; the in-progress flag is clear; and the price lookup of the
    estimate (line 178) finds, for every locality of the select box, an
    entry of the session and so never raises. *)
Theorem reachable_session_is_surveyed dec st :
  reachable dec st ->
  surveyed st /\
  scraping_in_progress st = Some false /\
  forall locality, In locality SELECTBOX_LOCALITIES ->
    exists v, market_avg_price st locality = Some v /\ mean_or_default locality v.
Proof.
  intros Hr.
  assert (H : surveyed st /\ scraping_in_progress st = Some false).
  { induction Hr as [|st Hr [IHs IHf]|now session st Hr [IHs IHf]].
    - split; [|reflexivity].
      exists default_market_prices. split; [reflexivity|].
      apply default_market_prices_surveyed.
    - destruct IHs as (prices & Hmp & Hk & Ha).
      split.
      + exists prices. cbn [init_session market_prices]. rewrite Hmp. auto.
      + cbn [init_session scraping_in_progress]. now rewrite IHf.
    - unfold press_button.
      destruct (scrape_market_prices dec 8 (Some update_progress) session)
        as [tr [d|e]] eqn:E; cbn [fst market_prices scraping_in_progress].
      + split; [|reflexivity]. exists d. split; [reflexivity|].
        apply (returned_survey_surveyed dec 8 (Some update_progress) session).
        now rewrite E.
      + split; [|reflexivity].
        destruct IHs as (prices & Hmp & Hk & Ha).
        exists prices. cbn [init_session market_prices]. rewrite Hmp. auto. }
  destruct H as [Hs Hf]. split; [exact Hs | split; [exact Hf|]].
  intros l Hl. now apply surveyed_lookup.
Qed.

Lemma reachable_session_is_surveyed_witness :
  market_avg_price
    (fst (press_button ascii_decimal 0 always_crashes (init_session fresh_session)))
    "Łódź Widzew"
  = Some (PyInt 450000).
Proof.
  destruct (reachable_session_is_surveyed ascii_decimal
              (fst (press_button ascii_decimal 0 always_crashes
                      (init_session fresh_session)))) as (_ & _ & H).
  - apply reach_press. apply reach_load.
  - destruct (H "Łódź Widzew"%string) as (v & Hv & _).
    + cbn. tauto.
    + reflexivity.
Defined.

(** ** The requests and the messages of a whole survey *)

Lemma slash_split (s1 s2 r1 r2 : string) :
  no_slash s1 = true -> no_slash s2 = true ->
  (s1 ++ String "/" r1 = s2 ++ String "/" r2)%string ->
  s1 = s2 /\ r1 = r2.
Proof.
  revert s2. induction s1 as [|a s1 IH]; intros [|b s2]; cbn [no_slash append].
  - intros _ _ [= ->]. auto.
  - intros _ H [= <- _]. cbn in H. discriminate.
  - intros H _ [= -> _]. cbn in H. discriminate.
  - intros H1 H2 [= -> E].
    apply andb_true_iff in H1, H2. destruct H1 as [_ H1]. destruct H2 as [_ H2].
    destruct (IH s2 H1 H2 E) as [-> ->]. auto.
Qed.

Lemma page_url_inj_both u1 u2 p1 p2 :
  no_slash u1 = true -> no_slash u2 = true ->
  page_url u1 p1 = page_url u2 p2 -> u1 = u2 /\ p1 = p2.
Proof.
  unfold page_url. intros H1 H2 E.
  do 2 apply append_inj_l in E.
  apply (slash_split u1 u2) in E; try assumption.
  destruct E as [-> E]. split; [reflexivity|].
  injection E as E. now apply str_of_int_inj.
Qed.

Lemma range_length a b : List.length (range a b) = Z.to_nat (b - a).
Proof. unfold range. now rewrite length_map, length_seq. Qed.

Section SurveyRequests.
Variable dec : N -> option N.
Variable session : network.
Variable pages : Z.
Variable progress_callback : option callback.
Variable total : Z.

Lemma aggregate_locality_gets locality url_suffix :
  NoDup (gets (fst (aggregate_locality dec session pages locality url_suffix))) /\
  (List.length (gets (fst (aggregate_locality dec session pages locality url_suffix)))
   <= Z.to_nat pages)%nat /\
  forall url,
    In url (gets (fst (aggregate_locality dec session pages locality url_suffix))) ->
    exists p, 1 <= p <= pages /\ url = page_url url_suffix p.
Proof.
  rewrite aggregate_locality_eq. cbn [fst].
  destruct (scrape_pages_range_gets dec session url_suffix
              (Z.to_nat (pages + 1 - 1)) 1 (pages + 1) [] eq_refl) as (k & Hk & E).
  rewrite E. split; [|split].
  - apply NoDup_map_injective; [|apply range_NoDup].
    intros i j. apply page_url_inj.
  - rewrite length_map, range_length. lia.
  - intros url Hin. apply in_map_iff in Hin. destruct Hin as (p & <- & Hp).
    apply in_range in Hp. exists p. split; [lia | reflexivity].
Qed.

(** The requests of the loop are those of its localities, one locality
    after the other, up to the point where the loop ends. *)
Lemma survey_loop_gets_prefix items : forall idx market_prices,
  exists n,
    gets (fst (survey_loop dec session pages progress_callback total idx
                 items market_prices))
    = firstn n
        (flat_map (fun kv =>
                     gets (fst (aggregate_locality dec session pages (fst kv) (snd kv))))
           items).
Proof.
  induction items as [|[locality url_suffix] items IH]; intros idx mp.
  - now exists 0%nat.
  - cbn [survey_loop flat_map fst snd]. rewrite bind_eq.
    pose proof (gets_call_progress progress_callback
                  (fraction_started idx total) ("Scrapowanie " ++ locality ++ "...")) as G1.
    destruct (snd (call_progress progress_callback _ _)); cbn [fst];
      [|exists 0%nat; now rewrite G1].
    rewrite gets_app, G1. cbn [app]. rewrite bind_eq.
    set (g := gets (fst (aggregate_locality dec session pages locality url_suffix))).
    destruct (snd (aggregate_locality dec session pages locality url_suffix)) as [v|e];
      cbn [fst].
    + rewrite gets_app. fold g. rewrite bind_eq.
      pose proof (gets_call_progress progress_callback
                    (fraction_finished idx total) ("Zakończono " ++ locality)) as G2.
      destruct (snd (call_progress progress_callback _ _)); cbn [fst].
      * rewrite gets_app, G2. cbn [app].
        destruct (IH (idx + 1) (dict_set mp locality v)) as (n & ->).
        exists (List.length g + n)%nat. now rewrite firstn_app_2.
      * rewrite G2, app_nil_r. exists (List.length g).
        rewrite firstn_app, firstn_all, Nat.sub_diag. cbn. now rewrite app_nil_r.
    + fold g. exists (List.length g).
      rewrite firstn_app, firstn_all, Nat.sub_diag. cbn. now rewrite app_nil_r.
Qed.

Lemma all_gets_NoDup items :
  forallb (fun kv => no_slash (snd kv)) items = true ->
  NoDup (map snd items) ->
  NoDup (flat_map (fun kv =>
                     gets (fst (aggregate_locality dec session pages (fst kv) (snd kv))))
           items).
Proof.
  induction items as [|[locality url_suffix] items IH]; cbn [forallb map flat_map fst snd];
    intros Hs Hnd; [constructor|].
  apply andb_true_iff in Hs. destruct Hs as [Hs Hss].
  inversion Hnd as [|? ? Hnin Hnd']; subst.
  apply NoDup_app.
  - apply aggregate_locality_gets.
  - now apply IH.
  - intros url Hin Hin'.
    destruct (aggregate_locality_gets locality url_suffix) as (_ & _ & Hu).
    destruct (Hu url Hin) as (p & _ & ->).
    apply in_flat_map in Hin'. destruct Hin' as ([l u] & Hlu & Hin'). cbn [fst snd] in Hin'.
    destruct (aggregate_locality_gets l u) as (_ & _ & Hu').
    destruct (Hu' _ Hin') as (p' & _ & E).
    apply page_url_inj_both in E; try assumption.
    + destruct E as [-> _]. apply Hnin. apply in_map_iff. now exists (l, u).
    + rewrite forallb_forall in Hss. exact (Hss (l, u) Hlu).
Qed.

Lemma all_gets_length items :
  (List.length
     (flat_map (fun kv =>
                  gets (fst (aggregate_locality dec session pages (fst kv) (snd kv))))
        items)
   <= List.length items * Z.to_nat pages)%nat.
Proof.
  induction items as [|[locality url_suffix] items IH]; cbn [flat_map List.length fst snd];
    [lia|].
  rewrite length_app.
  destruct (aggregate_locality_gets locality url_suffix) as (_ & Hlen & _). lia.
Qed.
End SurveyRequests.

Lemma firstn_NoDup {A} n (l : list A) : NoDup l -> NoDup (firstn n l).
Proof.
  intros H. rewrite <- (firstn_skipn n l) in H. now apply NoDup_app_remove_r in H.
Qed.

Lemma firstn_In {A} n (l : list A) x : In x (firstn n l) -> In x l.
Proof.
  intros H. rewrite <- (firstn_skipn n l). apply in_or_app. now left.
Qed.

(** X12: a survey requests no URL twice, requests nothing but pages 1
    to [pages] of the known localities, and makes at most [pages]
    requests for each of the five localities. *)
Theorem survey_requests_each_page_once dec pages progress_callback session :
  NoDup (gets (fst (scrape_market_prices dec pages progress_callback session))) /\
  (List.length (gets (fst (scrape_market_prices dec pages progress_callback session)))
   <= 5 * Z.to_nat pages)%nat /\
  forall url,
    In url (gets (fst (scrape_market_prices dec pages progress_callback session))) ->
    exists locality url_suffix p,
      In (locality, url_suffix) LOCALITY_URL_MAP /\ 1 <= p <= pages /\
      url = page_url url_suffix p.
Proof.
  unfold scrape_market_prices.
  destruct (survey_loop_gets_prefix dec session pages progress_callback
              (Z.of_nat (List.length LOCALITY_URL_MAP)) LOCALITY_URL_MAP 0 [])
    as (n & E).
  rewrite E. split; [|split].
  - apply firstn_NoDup. apply all_gets_NoDup; [reflexivity|].
    unfold LOCALITY_URL_MAP. cbn [map snd].
    repeat (constructor; [cbn [In]; intros H; repeat (destruct H as [[=] | H]); exact H|]).
    constructor.
  - rewrite length_firstn. etransitivity; [apply Nat.le_min_r|].
    exact (all_gets_length dec session pages LOCALITY_URL_MAP).
  - intros url Hin. apply firstn_In in Hin.
    apply in_flat_map in Hin. destruct Hin as ([l u] & Hlu & Hin). cbn [fst snd] in Hin.
    destruct (aggregate_locality_gets dec session pages l u) as (_ & _ & Hu).
    destruct (Hu url Hin) as (p & Hp & ->). eauto 6.
Qed.

Section SurveyMessages.
Variable dec : N -> option N.
Variable session : network.
Variable pages : Z.

Lemma survey_loop_messages (f : callback) total items : forall idx market_prices,
  (exists n,
     messages (fst (survey_loop dec session pages (Some f) total idx items market_prices))
     = firstn n (reported_messages items)) /\
  (forall d,
     snd (survey_loop dec session pages (Some f) total idx items market_prices)
       = Returned d ->
     messages (fst (survey_loop dec session pages (Some f) total idx items market_prices))
     = reported_messages items).
Proof.
  induction items as [|[locality url_suffix] items IH]; intros idx mp.
  - split; [now exists 0%nat | reflexivity].
  - cbn [survey_loop reported_messages flat_map fst app].
    fold (reported_messages items).
    rewrite bind_eq, call_progress_some. cbn [fst snd].
    destruct (f (fraction_started idx total) _).
    { split; [now exists 1%nat | discriminate]. }
    rewrite bind_eq.
    pose proof (aggregate_locality_quiet dec session pages locality url_suffix) as Hq.
    apply filter_progress_messages in Hq.
    destruct (snd (aggregate_locality dec session pages locality url_suffix)) as [v|e].
    + rewrite bind_eq, call_progress_some. cbn [fst snd].
      destruct (f (fraction_finished idx total) _).
      * cbn [fst snd app messages]. rewrite messages_app, Hq.
        split; [now exists 2%nat | discriminate].
      * destruct (IH (idx + 1) (dict_set mp locality v)) as ((n & Hn) & Hret).
        cbn [fst snd app messages]. rewrite messages_app, Hq. cbn [app messages].
        split.
        -- exists (S (S n)). cbn [firstn]. now rewrite Hn.
        -- intros d Hd. now rewrite (Hret d Hd).
    + cbn [fst snd app messages]. rewrite Hq.
      split; [now exists 1%nat | discriminate].
Qed.
End SurveyMessages.

(** X13: the messages a survey gives its observer are, in the order of
    [LOCALITY_URL_MAP], a start message and then an end message for
    each locality: all ten when the survey returns, and the first few
    of the ten when an exception cuts it short, so that no end message
    comes without its start message before it. *)
Theorem progress_messages_follow_the_localities dec pages (f : callback) session :
  (exists n,
     messages (fst (scrape_market_prices dec pages (Some f) session))
     = firstn n (reported_messages LOCALITY_URL_MAP)) /\
  (forall d,
     snd (scrape_market_prices dec pages (Some f) session) = Returned d ->
     messages (fst (scrape_market_prices dec pages (Some f) session))
     = reported_messages LOCALITY_URL_MAP).
Proof. apply survey_loop_messages. Qed.

Lemma progress_messages_follow_the_localities_witness :
  messages (fst (scrape_market_prices ascii_decimal 8 (Some silent_observer)
                   three_prices_then_empty))
  = reported_messages LOCALITY_URL_MAP.
Proof.
  destruct (progress_messages_follow_the_localities ascii_decimal 8 silent_observer
              three_prices_then_empty) as [_ H].
  eapply H. vm_compute. reflexivity.
Defined.

(** ** Prices too large for a float *)

Lemma of_Z_finite_below z : 0 <= z < 2 ^ 1023 -> is_finite (F64.of_Z z) = true.
Proof.
  intros Hz. destruct z as [|p|p]; try lia; [reflexivity|].
  unfold F64.of_Z, binary_normalize.
  pose proof (F64Facts.dg_pos (Zpos p) ltac:(lia)) as Hd.
  assert (Hu : F64.dg (Zpos p) <= 1023) by (apply F64Facts.dg_upper; lia).
  destruct (F64Facts.binary_round_spec p 0 ltac:(lia)) as (D & m' & HD & Hm' & ->).
  assert (Hf : (F64.fexp64 D <=? F64.emax - F64.prec) = true).
  { apply Z.leb_le. rewrite F64Facts.fexp64_eq. unfold F64.emax, F64.prec. lia. }
  now rewrite Hf.
Qed.

Lemma of_Z_overflow z : 2 ^ 1024 <= z -> F64.of_Z z = S754_infinity false.
Proof.
  intros Hz. assert (0 < 2 ^ 1024) by (apply Z.pow_pos_nonneg; lia).
  destruct z as [|p|p]; try lia.
  unfold F64.of_Z, binary_normalize.
  assert (Hl : 1025 <= F64.dg (Zpos p)) by (apply (F64Facts.dg_lower _ 1024); lia).
  destruct (F64Facts.binary_round_spec p 0 ltac:(lia)) as (D & m' & HD & Hm' & ->).
  assert (Hf : (F64.fexp64 D <=? F64.emax - F64.prec) = false).
  { apply Z.leb_gt. rewrite F64Facts.fexp64_eq. unfold F64.emax, F64.prec. lia. }
  now rewrite Hf.
Qed.

(** X14: a price text whose digits form an integer below [2^1023] is
    parsed to a finite float; from [2^1024] on the result is the
    positive infinity, which the listing loop keeps as a price like any
    other. *)
Theorem parse_price_overflows_to_infinity dec (s : text) :
  dec 32%N = None -> dec 160%N = None -> digits_of dec s <> [] ->
  (number_of (digits_of dec s) < 2 ^ 1023 ->
   exists x, parse_price dec (Some s) = Some x /\ is_finite x = true) /\
  (2 ^ 1024 <= number_of (digits_of dec s) ->
   parse_price dec (Some s) = Some (S754_infinity false) /\
   forall prices,
     scrape_listing dec prices (PriceTag s) = prices ++ [S754_infinity false]).
Proof.
  intros H32 H160 Hne.
  assert (E : parse_price dec (Some s) = Some (F64.of_Z (number_of (digits_of dec s)))).
  { rewrite parse_price_digits by assumption.
    destruct (digits_of dec s); [congruence | reflexivity]. }
  assert (Hn : 0 <= number_of (digits_of dec s)) by (apply number_of_nonneg; lia).
  split.
  - intros Hlt. eexists. split; [exact E|]. apply of_Z_finite_below. lia.
  - intros Hge. rewrite E, (of_Z_overflow _ Hge). split; [reflexivity|].
    intros prices. cbn [scrape_listing].
    assert (E' : parse_price dec (Some (str_remove 160 s)) = parse_price dec (Some s)).
    { rewrite !parse_price_digits by assumption. now rewrite digits_of_str_remove. }
    now rewrite E', E, (of_Z_overflow _ Hge).
Qed.

Lemma parse_price_overflows_to_infinity_witness :
  exists x, parse_price ascii_decimal (Some (text_of "380 000 z")) = Some x /\
            is_finite x = true.
Proof.
  destruct (parse_price_overflows_to_infinity ascii_decimal (text_of "380 000 z")
              eq_refl eq_refl) as [H _].
  - discriminate.
  - apply H. reflexivity.
Defined.

(** ** A failed page, and the survey as a whole *)

(** C4 (amended): a page whose fetch fails with a [RequestException]
    neither ends pagination nor aborts the locality. The loop goes on
    with the remaining pages; once the failed page [k < pages] has been
    requested, page [k + 1] is requested too; the failed page gives no
    price, so the outcome is the one of the loop without page [k]; if
    page [k + 1] yields a price the result is not a default; no
    [RequestException] ever leaves the aggregator; and the default is
    returned only when no requested page has yielded a price. *)
Theorem request_failure_continues dec session url_suffix k what :
  session (page_url url_suffix k) = Raises (RequestException what) ->
  (forall rest prices,
     scrape_pages dec session url_suffix (k :: rest) prices =
     (Get (page_url url_suffix k)
        :: fst (scrape_pages dec session url_suffix rest prices),
      snd (scrape_pages dec session url_suffix rest prices))) /\
  (forall pages locality,
     1 <= k < pages ->
     In (Get (page_url url_suffix k))
        (fst (aggregate_locality dec session pages locality url_suffix)) ->
     In (Get (page_url url_suffix (k + 1)))
        (fst (aggregate_locality dec session pages locality url_suffix))) /\
  (forall before after prices,
     snd (scrape_pages dec session url_suffix (before ++ k :: after) prices) =
     snd (scrape_pages dec session url_suffix (before ++ after) prices)) /\
  (forall pages locality listings x,
     1 <= k < pages ->
     In (Get (page_url url_suffix k))
        (fst (aggregate_locality dec session pages locality url_suffix)) ->
     session (page_url url_suffix (k + 1)) = Listings listings ->
     extract_prices dec listings <> [] ->
     snd (aggregate_locality dec session pages locality url_suffix)
       <> Returned (PyInt x)) /\
  (forall pages locality w,
     snd (aggregate_locality dec session pages locality url_suffix)
       <> Raised (RequestException w)) /\
  (forall pages locality z,
     snd (aggregate_locality dec session pages locality url_suffix)
       = Returned (PyInt z) ->
     flat_map (fun url => prices_of dec (session url))
       (gets (fst (aggregate_locality dec session pages locality url_suffix))) = []).
Proof.
  intros Hfail. repeat split.
  - intros rest prices. now rewrite scrape_pages_step, Hfail.
  - intros pages locality Hk. rewrite aggregate_locality_eq. cbn [fst].
    rewrite (range_split 1 k (pages + 1)), (range_cons k (pages + 1)),
      (range_cons (k + 1) (pages + 1)) by lia.
    apply (scrape_pages_next dec session url_suffix k what Hfail).
    rewrite in_range. lia.
  - intros before after prices.
    apply (scrape_pages_skip dec session url_suffix k what Hfail).
  - intros pages locality listings x Hk Hin Hnext Hne.
    rewrite aggregate_locality_eq in *. cbn [fst snd] in *.
    rewrite (range_split 1 k (pages + 1)), (range_cons k (pages + 1)),
      (range_cons (k + 1) (pages + 1)) in * by lia.
    destruct (snd (scrape_pages dec session url_suffix
                (range 1 k ++ k :: k + 1 :: range (k + 1 + 1) (pages + 1)) []))
      as [ps|e] eqn:E; [|discriminate].
    assert (Hps : ps <> []).
    { eapply (scrape_pages_after_failure dec session url_suffix k what (k + 1));
        try eassumption. rewrite in_range. lia. }
    destruct ps; [congruence | discriminate].
  - intros pages locality w. rewrite aggregate_locality_eq. cbn [snd].
    pose proof (scrape_pages_no_request_exception dec session url_suffix
                  (range 1 (pages + 1)) [] w) as H.
    destruct (snd (scrape_pages dec session url_suffix (range 1 (pages + 1)) []));
      congruence.
  - intros pages locality z. rewrite aggregate_locality_eq. cbn [fst snd].
    destruct (snd (scrape_pages dec session url_suffix (range 1 (pages + 1)) []))
      as [ps|e] eqn:E; [|discriminate].
    apply scrape_pages_collects in E. cbn [app] in E. rewrite <- E.
    destruct ps; [reflexivity | discriminate].
Qed.

Lemma request_failure_continues_witness :
  In (Get (page_url "lodz-baluty" 2))
     (fst (aggregate_locality ascii_decimal timeout_then_priced 8
             "Łódź Bałuty" "lodz-baluty")) /\
  snd (aggregate_locality ascii_decimal timeout_then_priced 8
         "Łódź Bałuty" "lodz-baluty") <> Returned (PyInt 380000).
Proof.
  destruct (request_failure_continues ascii_decimal timeout_then_priced
              "lodz-baluty" 1 "timeout" eq_refl) as (_ & Hnext & _ & Hmean & _ & _).
  split.
  - apply (Hnext 8 "Łódź Bałuty"%string); [lia | now left].
  - apply (Hmean 8 "Łódź Bałuty"%string [PriceTag (text_of "500 000 z")]);
      [lia | now left | reflexivity | discriminate].
Defined.

(** With an answer for its first page the locality gets the mean
    500000.0; when that one request times out, and nothing else
    changes, it falls back to the default. *)
Lemma single_failure_falls_back_to_default :
  (forall url, url <> page_url "lodz-baluty" 1 ->
     timeout_then_empty url = priced_then_empty url) /\
  timeout_then_empty (page_url "lodz-baluty" 1) = Raises (RequestException "timeout") /\
  snd (aggregate_locality ascii_decimal priced_then_empty 8 "Łódź Bałuty" "lodz-baluty")
    = Returned (PyFloat (F64.of_Z 500000)) /\
  snd (aggregate_locality ascii_decimal timeout_then_empty 8 "Łódź Bałuty" "lodz-baluty")
    = Returned (PyInt 380000).
Proof.
  split; [|repeat split].
  intros url Hne. unfold timeout_then_empty, priced_then_empty.
  destruct (String.eqb_spec url (page_url "lodz-baluty" 1)); [contradiction | reflexivity].
Qed.




(** ** Parsing a decimal numeral *)

(** X2: for an integer [n] with [abs(n)] below [2^1023], writing [n] in
    decimal and parsing it gives [abs(n)] back as a finite float: the
    sign is dropped, and the value is exactly [abs(n)] below [2^53]. *)
Theorem parse_price_of_str n :
  Z.abs n < 2 ^ 1023 ->
  parse_price ascii_decimal (Some (text_of (str_of_int n)))
    = Some (F64.of_Z (Z.abs n)) /\
  is_finite (F64.of_Z (Z.abs n)) = true /\
  (Z.abs n < 2 ^ 53 -> F64.eq_Z (F64.of_Z (Z.abs n)) (Z.abs n) = true).
Proof.
  intros Hb. split; [|split].
  - rewrite parse_price_digits by reflexivity.
    pose proof (number_of_str_of_int n) as Hn.
    destruct (digits_of ascii_decimal (text_of (str_of_int n))) as [|d ds] eqn:E.
    + assert (n = 0) by (cbn in Hn; lia). subst n. discriminate E.
    + now rewrite Hn.
  - apply of_Z_finite_below. lia.
  - intros H. apply F64Facts.of_Z_eq_Z. lia.
Qed.

Lemma parse_price_of_str_witness :
  parse_price ascii_decimal (Some (text_of (str_of_int (-380000))))
  = Some (F64.of_Z 380000).
Proof.
  destruct (parse_price_of_str (-380000)) as [H _].
  - reflexivity.
  - exact H.
Defined.
